(** * A file store and a user registry behind Express routes

    A shallow embedding of two small HTTP services:

    - the file system service ([createFile], [readFile], [appendToFile],
      [deleteFile]) with its routes, and
    - the user service ([createUserService], ...), its controllers, the
      [checkUserExists] middleware and the user router.

    JavaScript strings are represented by their UTF-8 bytes (Rocq's
    [string]), so that writing a file with the ['utf8'] encoding and
    reading it back are both the identity on the representation.
    Asynchronous functions are run sequentially: every [await] is a bind
    of the monad [M] below, and a rejected promise is a [Throw]. *)

From Stdlib Require Import Ascii String List ZArith Bool Lia DecimalString.
From stdpp Require Import base option list strings gmap.

Local Open Scope string_scope.
Local Open Scope list_scope.

(** ** JavaScript strings *)

Module JsString.

Definition chars (s : string) : list ascii := list_ascii_of_string s.
Definition ofChars (l : list ascii) : string := string_of_list_ascii l.

(** [s.length === 0], the only way a string is falsy. *)
Definition isEmpty (s : string) : bool :=
  match s with EmptyString => true | String _ _ => false end.

Definition toLowerAscii (c : ascii) : ascii :=
  let n := nat_of_ascii c in
  if (65 <=? n)%nat && (n <=? 90)%nat then ascii_of_nat (n + 32) else c.

(** [String.prototype.toLowerCase] on the ASCII letters.  The service
    only compares the result with the suffix [".json"], and no
    character outside ASCII lowers to one of [. j s o n]. *)
Fixpoint toLowerCase (s : string) : string :=
  match s with
  | EmptyString => EmptyString
  | String c r => String (toLowerAscii c) (toLowerCase r)
  end.

Fixpoint startsWithChars (p s : list ascii) : bool :=
  match p, s with
  | [], _ => true
  | _ :: _, [] => false
  | a :: p', b :: s' => if Ascii.eqb a b then startsWithChars p' s' else false
  end.

Definition startsWith (s p : string) : bool :=
  startsWithChars (chars p) (chars s).

(** [s.endsWith(suffix)] *)
Definition endsWith (s suffix : string) : bool :=
  startsWithChars (rev (chars suffix)) (rev (chars s)).

Fixpoint includesChars (needle hay : list ascii) : bool :=
  if startsWithChars needle hay then true
  else match hay with
       | [] => false
       | _ :: hay' => includesChars needle hay'
       end.

(** [s.includes(needle)] *)
Definition includes (s needle : string) : bool :=
  includesChars (chars needle) (chars s).

Definition bytes (l : list nat) : list ascii := map ascii_of_nat l.

(** The white space and line terminators of ECMAScript, in UTF-8:
    TAB, LF, VT, FF, CR, SP, U+00A0, U+1680, U+2000..U+200A, U+2028,
    U+2029, U+202F, U+205F, U+3000 and U+FEFF. *)
Definition whiteSpace : list (list ascii) :=
  map bytes
    [ [9]; [10]; [11]; [12]; [13]; [32]; [194; 160]; [225; 154; 128];
      [226; 128; 128]; [226; 128; 129]; [226; 128; 130]; [226; 128; 131];
      [226; 128; 132]; [226; 128; 133]; [226; 128; 134]; [226; 128; 135];
      [226; 128; 136]; [226; 128; 137]; [226; 128; 138]; [226; 128; 168];
      [226; 128; 169]; [226; 128; 175]; [226; 129; 159]; [227; 128; 128];
      [239; 187; 191] ]%nat.

(** Number of leading bytes of [s] that spell one white space character
    out of [ws], zero when [s] starts with none. *)
Definition leadingSpace (ws : list (list ascii)) (s : list ascii) : nat :=
  match List.find (fun t => startsWithChars t s) ws with
  | Some t => length t
  | None => 0
  end.

Fixpoint trimChars (ws : list (list ascii)) (fuel : nat) (s : list ascii)
  : list ascii :=
  match fuel with
  | O => s
  | S fuel' =>
      match leadingSpace ws s with
      | O => s
      | S k => trimChars ws fuel' (skipn (S k) s)
      end
  end.

Definition trimStartChars (s : list ascii) : list ascii :=
  trimChars whiteSpace (length s) s.

Definition trimEndChars (s : list ascii) : list ascii :=
  rev (trimChars (map (@rev ascii) whiteSpace) (length s) (rev s)).

(** [s.trim()] *)
Definition trim (s : string) : string :=
  ofChars (trimEndChars (trimStartChars (chars s))).

Definition singleQuote : ascii := "039"%char.
Definition doubleQuote : ascii := "034"%char.

Definition isQuote (c : ascii) : bool :=
  Ascii.eqb c singleQuote || Ascii.eqb c doubleQuote.

Definition dropLeadingQuote (s : list ascii) : list ascii :=
  match s with
  | c :: r => if isQuote c then r else s
  | [] => []
  end.

(** [s.replace(/^['"]|['"]$/g, '')]: the first alternative can only
    match at index 0 and the second only at the last index, and the
    two matches never overlap. *)
Definition stripQuotes (s : string) : string :=
  ofChars (rev (dropLeadingQuote (rev (dropLeadingQuote (chars s))))).

End JsString.

(** ** Node's [path] module (POSIX) *)

Module Path.
Import JsString.

Definition slash : ascii := "/"%char.

Fixpoint dropSlashes (s : list ascii) : list ascii :=
  match s with
  | c :: r => if Ascii.eqb c slash then dropSlashes r else s
  | [] => []
  end.

Fixpoint takeSegment (s : list ascii) : list ascii :=
  match s with
  | c :: r => if Ascii.eqb c slash then [] else c :: takeSegment r
  | [] => []
  end.

(** [path.basename(p)]: scanning from the end, skip the trailing
    separators, then keep everything up to the next separator. *)
Definition basename (p : string) : string :=
  ofChars (rev (takeSegment (dropSlashes (rev (chars p))))).

(** A normalized absolute path is the list of its segments, the root
    being the empty list. *)
Abbreviation path := (list string).

Fixpoint segments (s : list ascii) : list (list ascii) :=
  match s with
  | [] => [[]]
  | c :: r =>
      if Ascii.eqb c slash then [] :: segments r
      else match segments r with
           | seg :: rest => (c :: seg) :: rest
           | [] => [[c]]
           end
  end.

(** One step of [path.normalize]: empty and [.] segments vanish, [..]
    removes the segment before it (and is dropped at the root). *)
Definition enter (dir : path) (seg : string) : path :=
  if String.eqb seg "" || String.eqb seg "." then dir
  else if String.eqb seg ".." then removelast dir
  else dir ++ [seg].

(** [path.join(dir, rel)] for a normalized absolute [dir]. *)
Definition join (dir : path) (rel : string) : path :=
  fold_left enter (map ofChars (segments (chars rel))) dir.

(** [p] lies strictly below [dir]. *)
Definition inside (dir p : path) : bool :=
  (length dir <? length p)%nat && bool_decide (take (length dir) p = dir).

End Path.

(** ** JSON values *)

(** The values [JSON.parse] produces.  [number] stands for the doubles of
    JavaScript. *)
#[warnings="-register-all"]
Inductive json (number : Type) : Type :=
| JNull
| JBool (b : bool)
| JNum (x : number)
| JStr (s : string)
| JArr (items : list (json number))
| JObj (members : list (string * json number)).

Arguments JNull {number}.
Arguments JBool {number} b.
Arguments JNum {number} x.
Arguments JStr {number} s.
Arguments JArr {number} items.
Arguments JObj {number} members.

(** The built-in [JSON] object, as far as the services use it:
    [JSON_parse] is [None] where [JSON.parse] throws a [SyntaxError], and
    [JSON_stringify] is [JSON.stringify(v, null, 2)].  The empty text is
    no JSON text. *)
Class JsonLib (number : Type) := {
  JSON_parse : string -> option (json number);
  JSON_stringify : json number -> string;
  JSON_parse_empty : JSON_parse "" = None;
}.

(** [Array.isArray(data) ? data : [data]] *)
Definition ensureArray {number : Type} (data : json number) : list (json number) :=
  match data with
  | JArr items => items
  | _ => [data]
  end.

(** ** Errors and the response envelope *)

Module Error.
Inductive codeValue := Str (s : string) | Num (n : Z).

(** A JavaScript [Error] with the properties the code reads. *)
Record t := mk {
  name : string;
  message : string;
  code : option codeValue;
  statusCode : option Z;
}.

(** [new Error(message)] *)
Definition new (message : string) : t :=
  {| name := "Error"; message := message; code := None; statusCode := None |}.

(** A failed system call of Node's [fs], e.g. [ENOENT]. *)
Definition system (errno : string) : t :=
  {| name := "Error"; message := errno; code := Some (Str errno);
     statusCode := None |}.

Definition hasCode (e : t) (c : codeValue) : bool :=
  match code e, c with
  | Some (Str a), Str b => String.eqb a b
  | Some (Num a), Num b => Z.eqb a b
  | _, _ => false
  end.
End Error.

Module Response.
(** The envelope of [apiSuccess] and [apiError] without its
    [timestamp]; [error] is absent on success and [data] is absent when
    the caller passed none. *)
Record t (D : Type) := mk {
  statusCode : Z;
  success : bool;
  error : option string;
  message : string;
  data : option D;
}.
Arguments mk {D}.
Arguments statusCode {D}.
Arguments success {D}.
Arguments error {D}.
Arguments message {D}.
Arguments data {D}.
End Response.

Definition apiSuccess {D} (statusCode : Z) (message : string) (data : option D)
  : Response.t D :=
  {| Response.statusCode := statusCode; Response.success := true;
     Response.error := None; Response.message := message;
     Response.data := data |}.

Definition apiError {D} (statusCode : Z) (error message : string)
  : Response.t D :=
  {| Response.statusCode := statusCode; Response.success := false;
     Response.error := Some error; Response.message := message;
     Response.data := None |}.

(** ** Computations over a store *)

(** A promise settles with a value or rejects with an error; the store
    it ran against is threaded through either way. *)
Inductive outcome (A : Type) : Type :=
| Ok (a : A)
| Throw (e : Error.t).
Arguments Ok {A} a.
Arguments Throw {A} e.

Definition M (S A : Type) : Type := S -> outcome A * S.

Definition ret {S A} (a : A) : M S A := fun s => (Ok a, s).
Definition throw {S A} (e : Error.t) : M S A := fun s => (Throw e, s).

Definition bind {S A B} (m : M S A) (k : A -> M S B) : M S B :=
  fun s =>
    match m s with
    | (Ok a, s') => k a s'
    | (Throw e, s') => (Throw e, s')
    end.

(** [try { m } catch (error) { handler(error) }] *)
Definition tryCatch {S A} (m : M S A) (handler : Error.t -> M S A) : M S A :=
  fun s =>
    match m s with
    | (Ok a, s') => (Ok a, s')
    | (Throw e, s') => handler e s'
    end.

Notation "'await' x <- m ; k" := (bind m (fun x => k))
  (at level 10, x name, m at level 100, k at level 200,
   format "'[v' 'await'  x  <-  m ; '/' k ']'").

(** ** The file system *)

Module Fs.
Import Path.

Inductive node :=
| File (content : string)
| Dir.

(** The calls of [fs.promises] the service makes. *)
Inductive call :=
| Access (p : path)
| WriteFile (p : path) (content : string)
| ReadFile (p : path)
| AppendFile (p : path) (content : string)
| Stat (p : path)
| Unlink (p : path).

Definition target (c : call) : path :=
  match c with
  | Access p | WriteFile p _ | ReadFile p | AppendFile p _ | Stat p
  | Unlink p => p
  end.

(** The tree of files, and the calls made so far, oldest first. *)
Record world := mkWorld {
  files : gmap path node;
  trace : list call;
}.

(** [fs.Stats], without its times. *)
Record Stats := { size : nat }.

Definition ENOENT : Error.t := Error.system "ENOENT".
Definition EISDIR : Error.t := Error.system "EISDIR".
Definition ENOTDIR : Error.t := Error.system "ENOTDIR".

Definition called (c : call) (w : world) : world :=
  {| files := files w; trace := trace w ++ [c] |}.

Definition store (p : path) (n : node) (w : world) : world :=
  {| files := <[p := n]> (files w); trace := trace w |}.

Definition access (p : path) : M world unit := fun w =>
  let w := called (Access p) w in
  match files w !! p with
  | Some _ => (Ok tt, w)
  | None => (Throw ENOENT, w)
  end.

(** Creating an entry needs its parent directory. *)
Definition create (p : path) (content : string) (w : world)
  : outcome unit * world :=
  match files w !! removelast p with
  | Some Dir => (Ok tt, store p (File content) w)
  | Some (File _) => (Throw ENOTDIR, w)
  | None => (Throw ENOENT, w)
  end.

Definition writeFile (p : path) (content : string) : M world unit := fun w =>
  let w := called (WriteFile p content) w in
  match files w !! p with
  | Some (File _) => (Ok tt, store p (File content) w)
  | Some Dir => (Throw EISDIR, w)
  | None => create p content w
  end.

Definition readFile (p : path) : M world string := fun w =>
  let w := called (ReadFile p) w in
  match files w !! p with
  | Some (File content) => (Ok content, w)
  | Some Dir => (Throw EISDIR, w)
  | None => (Throw ENOENT, w)
  end.

Definition appendFile (p : path) (content : string) : M world unit := fun w =>
  let w := called (AppendFile p content) w in
  match files w !! p with
  | Some (File old) => (Ok tt, store p (File (old +:+ content)) w)
  | Some Dir => (Throw EISDIR, w)
  | None => create p content w
  end.

(** The size of a directory depends on the file system; no caller
    below reads it. *)
Definition stat (p : path) : M world Stats := fun w =>
  let w := called (Stat p) w in
  match files w !! p with
  | Some (File content) => (Ok {| size := String.length content |}, w)
  | Some Dir => (Ok {| size := 0 |}, w)
  | None => (Throw ENOENT, w)
  end.

Definition unlink (p : path) : M world unit := fun w =>
  let w := called (Unlink p) w in
  match files w !! p with
  | Some (File _) =>
      (Ok tt, {| files := delete p (files w); trace := trace w |})
  | Some Dir => (Throw EISDIR, w)
  | None => (Throw ENOENT, w)
  end.

End Fs.

(** ** The file system service *)

Module FileResult.
(** The objects the service resolves with; a property an operation
    does not set is [None].  The times of [readFile] are left out. *)
Record t := mk {
  success : bool;
  message : option string;
  filename : string;
  content : option string;
  size : option nat;
  newSize : option nat;
  arrayLength : option nat;
  path : Path.path;
}.
End FileResult.

Module FsService.
Import JsString Path Fs.

Section Service.
Context {number : Type} {JSON : JsonLib number}.

(** Directory of the module, a normalized absolute path. *)
Variable __dirname : path.

Definition FILES_DIR : path := join __dirname "files".

Definition isJsonFile (filename : string) : bool :=
  endsWith (toLowerCase filename) ".json".

(** The outer [try { ... } catch (error) { console.error(...); throw
    error }] of every operation only logs, and is left out. *)

Definition createFile (filename content : string) : M world FileResult.t :=
  if isEmpty filename || isEmpty content then
    throw (Error.new "Filename and content are required")
  else
    let cleanFilename := basename filename in
    let filePath := join FILES_DIR cleanFilename in
    await _ <- tryCatch
        (await _ <- access filePath;
         throw (Error.new ("File '" +:+ cleanFilename +:+ "' already exists")))
        (fun error =>
           if negb (Error.hasCode error (Error.Str "ENOENT")) then throw error
           else ret tt);
    await _ <- writeFile filePath content;
    ret {| FileResult.success := true;
           FileResult.message :=
             Some ("File '" +:+ cleanFilename +:+ "' created successfully");
           FileResult.filename := cleanFilename;
           FileResult.content := None;
           FileResult.size := Some (String.length content);
           FileResult.newSize := None;
           FileResult.arrayLength := None;
           FileResult.path := filePath |}.

(** [try { await fs.access(filePath) } catch (error) { ... }] of
    [readFile], [deleteFile] and [appendToFile]. *)
Definition mustExist (filePath : path) (notFound : string) : M world unit :=
  tryCatch (access filePath)
    (fun error =>
       if Error.hasCode error (Error.Str "ENOENT") then
         throw (Error.new notFound)
       else throw error).

Definition readFile (filename : string) : M world FileResult.t :=
  if isEmpty filename then throw (Error.new "Filename is required")
  else
    let cleanFilename := basename filename in
    let filePath := join FILES_DIR cleanFilename in
    await _ <- mustExist filePath ("File '" +:+ cleanFilename +:+ "' not found");
    await content <- Fs.readFile filePath;
    await stats <- stat filePath;
    ret {| FileResult.success := true;
           FileResult.message := None;
           FileResult.filename := cleanFilename;
           FileResult.content := Some content;
           FileResult.size := Some (size stats);
           FileResult.newSize := None;
           FileResult.arrayLength := None;
           FileResult.path := filePath |}.

Definition appendToJsonFile (filePath : path) (newContent cleanFilename : string)
  : M world FileResult.t :=
  await currentContent <- Fs.readFile filePath;
  await currentData <-
    match JSON_parse currentContent with
    | Some v => ret v
    | None =>
        throw (Error.new ("Invalid JSON format in file '" +:+ cleanFilename +:+ "'"))
    end;
  await newData <-
    let cleanNewContent := stripQuotes (trim newContent) in
    match JSON_parse cleanNewContent with
    | Some v => ret v
    | None =>
        throw (Error.new ("Invalid JSON content to append: " +:+ newContent))
    end;
  let currentArray := ensureArray currentData in
  let newArray := ensureArray newData in
  let combinedArray := currentArray ++ newArray in
  let updatedContent := JSON_stringify (JArr combinedArray) in
  await _ <- writeFile filePath updatedContent;
  await stats <- stat filePath;
  ret {| FileResult.success := true;
         FileResult.message :=
           Some ("JSON data appended to '" +:+ cleanFilename +:+ "' successfully");
         FileResult.filename := cleanFilename;
         FileResult.content := None;
         FileResult.size := None;
         FileResult.newSize := Some (size stats);
         FileResult.arrayLength := Some (length combinedArray);
         FileResult.path := filePath |}.

Definition appendToFile (filename content : string) : M world FileResult.t :=
  if isEmpty filename || isEmpty content then
    throw (Error.new "Filename and content are required")
  else
    let cleanFilename := basename filename in
    let filePath := join FILES_DIR cleanFilename in
    await _ <- mustExist filePath
        ("File '" +:+ cleanFilename +:+ "' not found. Use create endpoint first.");
    if isJsonFile cleanFilename then
      appendToJsonFile filePath content cleanFilename
    else
      await _ <- appendFile filePath content;
      await stats <- stat filePath;
      ret {| FileResult.success := true;
             FileResult.message :=
               Some ("Content appended to '" +:+ cleanFilename +:+ "' successfully");
             FileResult.filename := cleanFilename;
             FileResult.content := None;
             FileResult.size := None;
             FileResult.newSize := Some (size stats);
             FileResult.arrayLength := None;
             FileResult.path := filePath |}.

Definition deleteFile (filename : string) : M world FileResult.t :=
  if isEmpty filename then throw (Error.new "Filename is required")
  else
    let cleanFilename := basename filename in
    let filePath := join FILES_DIR cleanFilename in
    await _ <- mustExist filePath ("File '" +:+ cleanFilename +:+ "' not found");
    await _ <- unlink filePath;
    ret {| FileResult.success := true;
           FileResult.message :=
             Some ("File '" +:+ cleanFilename +:+ "' deleted successfully");
           FileResult.filename := cleanFilename;
           FileResult.content := None;
           FileResult.size := None;
           FileResult.newSize := None;
           FileResult.arrayLength := None;
           FileResult.path := filePath |}.

(** The [filePath] every operation computes from its [filename]. *)
Definition resolved (filename : string) : path :=
  join FILES_DIR (basename filename).

(** The state [ensureDirectoryExists] leaves behind: the directory of
    the module and its [files] directory exist. *)
Definition ready (w : world) : Prop :=
  files w !! __dirname = Some Dir /\ files w !! FILES_DIR = Some Dir.

(** *** Routes of the file API *)

(** A property of [req.body] or [req.query]; a missing one is [None]. *)
Definition falsy (v : option string) : bool :=
  match v with
  | Some s => isEmpty s
  | None => true
  end.

Definition text (v : option string) : string := default "" v.

(** A handler never rejects: it settles with the response it sent. *)
Definition handle {A} (m : M world A) (ok : A -> Response.t A)
    (failed : Error.t -> Response.t A) : world -> Response.t A * world :=
  fun w =>
    match m w with
    | (Ok a, w') => (ok a, w')
    | (Throw e, w') => (failed e, w')
    end.

(** [router.post("/create", ...)] *)
Definition postCreate (filename content : option string)
  : world -> Response.t FileResult.t * world :=
  if falsy filename || falsy content then
    fun w => (apiError 400 "Validation Error"
                "Both filename and content are required", w)
  else
    handle (createFile (text filename) (text content))
      (fun result => apiSuccess 201 "File created successfully!" (Some result))
      (fun error =>
         if includes (Error.message error) "already exists" then
           apiError 409 "Conflict" (Error.message error)
         else if includes (Error.message error) "required" then
           apiError 400 "Validation Error" (Error.message error)
         else apiError 500 "Internal Server Error" "Failed to create file").

(** [router.get("/read", ...)] *)
Definition getRead (filename : option string)
  : world -> Response.t FileResult.t * world :=
  if falsy filename then
    fun w => (apiError 400 "Validation Error"
                "Filename is required as query parameter", w)
  else
    handle (readFile (text filename))
      (fun result => apiSuccess 200 "File read successfully!" (Some result))
      (fun error =>
         if includes (Error.message error) "not found" then
           apiError 404 "File not found" (Error.message error)
         else apiError 500 "Internal Server Error" "Failed to read file").

(** [router.put("/append", ...)] *)
Definition putAppend (filename content : option string)
  : world -> Response.t FileResult.t * world :=
  if falsy filename || falsy content then
    fun w => (apiError 400 "Validation Error"
                "Both filename and content are required", w)
  else
    handle (appendToFile (text filename) (text content))
      (fun result => apiSuccess 200 "Content appended successfully!" (Some result))
      (fun error =>
         if includes (Error.message error) "not found" then
           apiError 404 "File not found" (Error.message error)
         else if includes (Error.message error) "required" then
           apiError 400 "Validation Error" (Error.message error)
         else apiError 500 "Internal Server Error" "Failed to append to file").

(** [router.delete("/delete", ...)] *)
Definition deleteDelete (filename : option string)
  : world -> Response.t FileResult.t * world :=
  if falsy filename then
    fun w => (apiError 400 "Validation Error"
                "Filename is required in request body", w)
  else
    handle (deleteFile (text filename))
      (fun result => apiSuccess 200 "File deleted successfully!" (Some result))
      (fun error =>
         if includes (Error.message error) "not found" then
           apiError 404 "File not found" (Error.message error)
         else apiError 500 "Internal Server Error" "Failed to delete file").

End Service.

End FsService.

(** ** The users collection *)

Section Users.
Context {number : Type}.

(** A document of the [users] collection under [userSchema]; the
    [createdAt], [updatedAt] and [__v] properties are left out. *)
Record User := mkUser {
  _id : string;
  name : string;
  email : string;
  password : string;
  phone : string;
  age : option number;
}.

(** The parsed JSON object of a request body. *)
Definition Body : Type := list (string * json number).

Fixpoint property (key : string) (body : Body) : option (json number) :=
  match body with
  | [] => None
  | (k, v) :: rest => if String.eqb k key then Some v else property key rest
  end.

(** What [res.json] sends for a document: every stored path. *)
Definition toJSON (user : User) : json number :=
  JObj ([ ("_id", JStr (_id user));
          ("name", JStr (name user));
          ("email", JStr (email user));
          ("password", JStr (password user));
          ("phone", JStr (phone user)) ]
        ++ match age user with
           | Some a => [("age", JNum a)]
           | None => []
           end).

(** The queries sent to the store. *)
Inductive query :=
| FindOne (email : option string)
| Create (userData : Body)
| Find
| FindById (id : string)
| FindByIdAndUpdate (id : string) (updates : Body)
| FindByIdAndDelete (id : string).

(** The collection in insertion order, and the queries sent so far. *)
Record db := mkDb {
  users : list User;
  queries : list query;
}.

Definition sent (q : query) (d : db) : db :=
  {| users := users d; queries := queries d ++ [q] |}.

End Users.

Arguments User : clear implicits.
Arguments Body : clear implicits.
Arguments query : clear implicits.
Arguments db : clear implicits.

(** What Mongoose, the MongoDB driver and bcrypt contribute:
    - [ObjectId_isValid] is [mongoose.Types.ObjectId.isValid];
    - [bcrypt_hash] is [bcrypt.hash] with the salt it drew;
    - [castEmail] casts a query filter on the [email] path (the setters
      [trim] and [lowercase] of the schema);
    - [User_new] builds a document from user data: casting, a new
      [_id], and the validators of [userSchema];
    - [User_set] casts and validates one path of an update, ignoring
      paths outside the schema. *)
Class Mongoose (number : Type) := {
  ObjectId_isValid : string -> bool;
  bcrypt_hash : string -> string;
  castEmail : string -> string;
  User_new : Body number -> Error.t + User number;
  User_set : string * json number -> User number -> Error.t + User number;
}.

Section UserModel.
Context {number : Type} {mongo : Mongoose number}.
Local Abbreviation User := (User number).
Local Abbreviation Body := (Body number).
Local Abbreviation db := (db number).


Definition CastError : Error.t :=
  {| Error.name := "CastError"; Error.message := "Cast to ObjectId failed";
     Error.code := None; Error.statusCode := None |}.

(** The error of the unique index on [email]. *)
Definition DuplicateKey : Error.t :=
  {| Error.name := "MongoServerError";
     Error.message := "E11000 duplicate key error";
     Error.code := Some (Error.Num 11000); Error.statusCode := None |}.

(** [userSchema.pre('save', ...)]: hash the password when it was
    modified, which it is on a new document. *)
Definition preSave (passwordModified : bool) (this : User) : User :=
  if negb passwordModified then this
  else
    {| _id := _id this; name := name this; email := email this;
       password := bcrypt_hash (password this);
       phone := phone this; age := age this |}.

Definition sameEmail (address : string) (user : User) : bool :=
  String.eqb (email user) address.

Definition sameId (id : string) (user : User) : bool :=
  String.eqb (_id user) id.

(** [User.findOne({ email })]; a filter that is no string matches no
    document. *)
Definition User_findOne (address : option string) : M db (option User) :=
  fun d =>
    let d := sent (FindOne address) d in
    match address with
    | Some a => (Ok (List.find (sameEmail (castEmail a)) (users d)), d)
    | None => (Ok None, d)
    end.

(** [User.create(userData)]: validate, run the save hook, insert. *)
Definition User_create (userData : Body) : M db User := fun d =>
  let d := sent (Create userData) d in
  match User_new userData with
  | inl invalid => (Throw invalid, d)
  | inr doc =>
      let doc := preSave true doc in
      if existsb (sameEmail (email doc)) (users d) then (Throw DuplicateKey, d)
      else (Ok doc, {| users := users d ++ [doc]; queries := queries d |})
  end.

(** [User.find({})] *)
Definition User_find : M db (list User) := fun d =>
  let d := sent Find d in (Ok (users d), d).

(** [User.findById(id)] *)
Definition User_findById (id : string) : M db (option User) := fun d =>
  let d := sent (FindById id) d in
  if ObjectId_isValid id then (Ok (List.find (sameId id) (users d)), d)
  else (Throw CastError, d).

Fixpoint applyUpdates (updates : Body) (doc : User) : Error.t + User :=
  match updates with
  | [] => inr doc
  | change :: rest =>
      match User_set change doc with
      | inl invalid => inl invalid
      | inr doc' => applyUpdates rest doc'
      end
  end.

Fixpoint replace (id : string) (doc : User) (docs : list User) : list User :=
  match docs with
  | [] => []
  | u :: rest =>
      if sameId id u then doc :: rest else u :: replace id doc rest
  end.

(** [User.findByIdAndUpdate(id, updates, { new: true, runValidators:
    true })] *)
Definition User_findByIdAndUpdate (id : string) (updates : Body)
  : M db (option User) := fun d =>
  let d := sent (FindByIdAndUpdate id updates) d in
  if negb (ObjectId_isValid id) then (Throw CastError, d)
  else
    match List.find (sameId id) (users d) with
    | None => (Ok None, d)
    | Some doc =>
        match applyUpdates updates doc with
        | inl invalid => (Throw invalid, d)
        | inr doc' =>
            if existsb (fun u => sameEmail (email doc') u && negb (sameId id u))
                 (users d)
            then (Throw DuplicateKey, d)
            else (Ok (Some doc'),
                  {| users := replace id doc' (users d); queries := queries d |})
        end
    end.

(** [User.findByIdAndDelete(id)] *)
Definition User_findByIdAndDelete (id : string) : M db (option User) :=
  fun d =>
    let d := sent (FindByIdAndDelete id) d in
    if negb (ObjectId_isValid id) then (Throw CastError, d)
    else
      match List.find (sameId id) (users d) with
      | None => (Ok None, d)
      | Some doc =>
          (Ok (Some doc),
           {| users := List.filter (fun u => negb (sameId id u)) (users d);
              queries := queries d |})
      end.

End UserModel.

(** ** The user service, its controllers and routes *)

Section UserService.
Context {number : Type} {mongo : Mongoose number}.
Local Abbreviation User := (User number).
Local Abbreviation Body := (Body number).
Local Abbreviation db := (db number).


(** [userData.email] as a query filter. *)
Definition emailOf (userData : Body) : option string :=
  match property "email" userData with
  | Some (JStr address) => Some address
  | _ => None
  end.

Definition createUserService (userData : Body) : M db User :=
  await existingUser <- User_findOne (emailOf userData);
  match existingUser with
  | Some _ =>
      throw {| Error.name := "Error";
               Error.message := "A user with this email address already exists.";
               Error.code := None;
               Error.statusCode := Some 409%Z |}
  | None =>
      await newUser <- User_create userData;
      ret newUser
  end.

Definition getUsersService : M db (list User) :=
  await users <- User_find;
  ret users.

Definition getUserByIdService (id : string) : M db User :=
  await user <- User_findById id;
  match user with
  | None => throw (Error.new "User not found")
  | Some user => ret user
  end.

Definition updateUserService (id : string) (updates : Body) : M db User :=
  await updatedUser <- User_findByIdAndUpdate id updates;
  match updatedUser with
  | None => throw (Error.new "User not found")
  | Some updatedUser => ret updatedUser
  end.

Definition deleteUserService (id : string) : M db User :=
  await deletedUser <- User_findByIdAndDelete id;
  match deletedUser with
  | None => throw (Error.new "User not found")
  | Some deletedUser => ret deletedUser
  end.

(** *** Controllers *)

Definition Reply : Type := Response.t (json number).

Definition respond {A} (m : M db A) (ok : A -> Reply)
    (failed : Error.t -> Reply) : db -> Reply * db :=
  fun d =>
    match m d with
    | (Ok a, d') => (ok a, d')
    | (Throw e, d') => (failed e, d')
    end.

Definition createUser (body : Body) : db -> Reply * db :=
  respond (createUserService body)
    (fun newUser =>
       apiSuccess 201 "User created successfully" (Some (toJSON newUser)))
    (fun error =>
       let statusCode :=
         if Error.hasCode error (Error.Num 11000) then 409%Z else 400%Z in
       apiError statusCode "Create User Failed" (Error.message error)).

Definition getAllUsers : db -> Reply * db :=
  respond getUsersService
    (fun users =>
       apiSuccess 200 "Users retrieved successfully"
         (Some (JArr (map toJSON users))))
    (fun _ => apiError 500 "Server Error" "Failed to retrieve users.").

(** [req.user] was attached by [checkUserExists]. *)
Definition getUserById (user : User) : db -> Reply * db :=
  fun d => (apiSuccess 200 "User retrieved successfully" (Some (toJSON user)), d).

Definition updateUser (id : string) (body : Body) : db -> Reply * db :=
  respond (updateUserService id body)
    (fun updatedUser =>
       apiSuccess 200 "User updated successfully" (Some (toJSON updatedUser)))
    (fun error => apiError 400 "Update User Failed" (Error.message error)).

Definition deleteUser (id : string) : db -> Reply * db :=
  respond (deleteUserService id)
    (fun _ => apiSuccess 200 "User deleted successfully" None)
    (fun _ => apiError 500 "Server Error" "Failed to delete user.").

(** The user records a reply carries: the document of [data], or each
    document of the array in [data]. *)
Definition records (reply : Reply) : list (json number) :=
  match Response.data reply with
  | Some data => ensureArray data
  | None => []
  end.

(** [record[key]] for a record of a reply. *)
Definition member (key : string) (record : json number) : option (json number) :=
  match record with
  | JObj members => property key members
  | _ => None
  end.

(** A record of a reply that is a stored user, password included. *)
Definition unredacted (d : db) (record : json number) : Prop :=
  exists user, In user (users d) /\ record = toJSON user /\
               member "password" record = Some (JStr (password user)).

(** *** Middleware *)

(** The reply of [checkUserExists] to an id that is no ObjectId. *)
Definition invalidId : Reply :=
  apiError 400 "Invalid ID" "The provided user ID is not a valid format.".


(** [checkUserExists]: [next] is the handler that runs with [req.user]
    set.  [getUserByIdService] never resolves with a missing user, it
    rejects, so the 404 branch of the source cannot be taken. *)
Definition checkUserExists (id : string) (next : User -> db -> Reply * db)
  : db -> Reply * db :=
  if negb (ObjectId_isValid id) then fun d => (invalidId, d)
  else
    fun d =>
      match getUserByIdService id d with
      | (Ok user, d') => next user d'
      | (Throw error, d') =>
          (apiError 500 "Server Error" (Error.message error), d')
      end.

(** *** Request validation *)

(** The rules of Joi that the schemas use, as written. *)
Inductive rule :=
| JoiString (min : option nat) (isEmail : bool) (pattern : option string)
| JoiNumber (integer : bool) (min max : option Z).

Inductive presence := Required | Optional.

Record Schema := {
  keys : list (string * (rule * presence));
  minKeys : nat;
}.

(** What Joi reports, one detail per violation. *)
Inductive detail :=
| IsRequired (key : string)
| IsInvalid (key reason : string)
| NotAllowed (key : string)
| ObjectMin (limit : nat).

(** [joiValue rule v] is the complaint of Joi about the value [v]
    under [rule], if any. *)
Variable joiValue : rule -> json number -> option string.
Variable detailMessage : detail -> string.

Definition checkKey (body : Body) (entry : string * (rule * presence))
  : option detail :=
  let '(key, (r, p)) := entry in
  match property key body, p with
  | None, Required => Some (IsRequired key)
  | None, Optional => None
  | Some v, _ => IsInvalid key <$> joiValue r v
  end.

Definition unknownKey (schema : Schema) (member : string * json number)
  : option detail :=
  if existsb (fun entry => String.eqb (fst entry) (fst member)) (keys schema)
  then None else Some (NotAllowed (fst member)).

Fixpoint firstSome {A B} (f : A -> option B) (l : list A) : option B :=
  match l with
  | [] => None
  | a :: rest => match f a with Some b => Some b | None => firstSome f rest end
  end.

(** [schema.validate(body)] with Joi's defaults: the first violation
    aborts, among the schema's keys, then unknown keys, then the
    rules of the object itself. *)
Definition schemaValidate (schema : Schema) (body : Body) : option (list detail) :=
  match firstSome (checkKey body) (keys schema) with
  | Some d => Some [d]
  | None =>
      match firstSome (unknownKey schema) body with
      | Some d => Some [d]
      | None =>
          if (length body <? minKeys schema)%nat
          then Some [ObjectMin (minKeys schema)]
          else None
      end
  end.

Definition phonePattern : string := "^\+?[1-9]\d{1,14}$".

Definition createUserSchema : Schema :=
  {| keys :=
       [ ("name", (JoiString (Some 2%nat) false None, Required));
         ("email", (JoiString None true None, Required));
         ("password", (JoiString (Some 8%nat) false None, Required));
         ("phone", (JoiString None false (Some phonePattern), Required));
         ("age", (JoiNumber true (Some 1%Z) (Some 120%Z), Optional)) ];
     minKeys := 0 |}.

Definition updateUserSchema : Schema :=
  {| keys :=
       [ ("name", (JoiString (Some 2%nat) false None, Optional));
         ("email", (JoiString None true None, Optional));
         ("phone", (JoiString None false (Some phonePattern), Optional));
         ("age", (JoiNumber true (Some 1%Z) (Some 120%Z), Optional)) ];
     minKeys := 1 |}.

Fixpoint joinWith (sep : string) (parts : list string) : string :=
  match parts with
  | [] => ""
  | [part] => part
  | part :: rest => part +:+ sep +:+ joinWith sep rest
  end.

(** [validate(schema)] as a middleware in front of [next]. *)
Definition validate (schema : Schema) (body : Body) (next : db -> Reply * db)
  : db -> Reply * db :=
  match schemaValidate schema body with
  | Some details =>
      let errorMessage := joinWith ", " (map detailMessage details) in
      fun d => (apiError 400 "Validation Error" errorMessage, d)
  | None => next
  end.

Definition validateCreateUser := validate createUserSchema.
Definition validateUpdateUser := validate updateUserSchema.

(** *** The router *)

Inductive request :=
| PostUsers (body : Body)
| GetUsers
| GetUser (id : string)
| PutUser (id : string) (body : Body)
| DeleteUser (id : string).

(** [router.route('/').post(createUser)], [.get(getAllUsers)],
    [router.use('/:id', checkUserExists)] and the three handlers of
    [router.route('/:id')]. *)
Definition userRoutes (req : request) : db -> Reply * db :=
  match req with
  | PostUsers body => createUser body
  | GetUsers => getAllUsers
  | GetUser id => checkUserExists id getUserById
  | PutUser id body => checkUserExists id (fun _ => updateUser id body)
  | DeleteUser id => checkUserExists id (fun _ => deleteUser id)
  end.

End UserService.


(** ** A JSON reader and printer for running examples *)

(** [JSON.parse] and [JSON.stringify(v, null, 2)] on the JSON texts made
    of arrays, [null], [true], [false], integer literals below [2^53] in
    magnitude and strings without escape sequences; [parse] is [None] on
    every other text. *)
Module JsonRef.
Import JsString.

Definition code (c : ascii) : nat := nat_of_ascii c.

Definition isSpace (c : ascii) : bool :=
  let n := code c in
  (n =? 9)%nat || (n =? 10)%nat || (n =? 13)%nat || (n =? 32)%nat.

Definition isDigit (c : ascii) : bool :=
  let n := code c in (48 <=? n)%nat && (n <=? 57)%nat.

Fixpoint skipSpace (s : list ascii) : list ascii :=
  match s with
  | c :: r => if isSpace c then skipSpace r else s
  | [] => []
  end.

Fixpoint readDigits (acc : Z) (s : list ascii) : Z * list ascii :=
  match s with
  | c :: r =>
      if isDigit c then readDigits (10 * acc + Z.of_nat (code c - 48)) r
      else (acc, s)
  | [] => (acc, [])
  end.

Definition endsNumber (rest : list ascii) : bool :=
  match rest with
  | c :: _ => negb (Ascii.eqb c "."%char || Ascii.eqb c "e"%char
                    || Ascii.eqb c "E"%char)
  | [] => true
  end.

(** An integer literal: [0], or a nonzero digit followed by digits. *)
Definition readNatural (s : list ascii) : option (Z * list ascii) :=
  match s with
  | c :: r =>
      if Ascii.eqb c "0"%char then
        match r with
        | c' :: _ => if isDigit c' then None
                     else if endsNumber r then Some (0%Z, r) else None
        | [] => Some (0%Z, [])
        end
      else if isDigit c then
        let '(n, rest) := readDigits 0 s in
        if endsNumber rest && (n <? 2 ^ 53)%Z then Some (n, rest) else None
      else None
  | [] => None
  end.

Fixpoint readString (s : list ascii) : option (list ascii * list ascii) :=
  match s with
  | c :: r =>
      if Ascii.eqb c doubleQuote then Some ([], r)
      else if Ascii.eqb c "\"%char || (code c <? 32)%nat then None
      else match readString r with
           | Some (text, rest) => Some (c :: text, rest)
           | None => None
           end
  | [] => None
  end.

Definition readWord (word : string) (s : list ascii) : option (list ascii) :=
  if startsWithChars (chars word) s
  then Some (skipn (String.length word) s) else None.

Fixpoint readValue (fuel : nat) (s : list ascii)
  : option (json Z * list ascii) :=
  match fuel with
  | O => None
  | S fuel =>
      match skipSpace s with
      | [] => None
      | c :: r =>
          if Ascii.eqb c "n"%char then
            rest ← readWord "null" (c :: r); Some (JNull, rest)
          else if Ascii.eqb c "t"%char then
            rest ← readWord "true" (c :: r); Some (JBool true, rest)
          else if Ascii.eqb c "f"%char then
            rest ← readWord "false" (c :: r); Some (JBool false, rest)
          else if Ascii.eqb c doubleQuote then
            '(text, rest) ← readString r; Some (JStr (ofChars text), rest)
          else if Ascii.eqb c "-"%char then
            '(n, rest) ← readNatural r; Some (JNum (- n)%Z, rest)
          else if Ascii.eqb c "["%char then
            match skipSpace r with
            | c' :: r' =>
                if Ascii.eqb c' "]"%char then Some (JArr [], r')
                else '(items, rest) ← readItems fuel r; Some (JArr items, rest)
            | [] => None
            end
          else
            '(n, rest) ← readNatural (c :: r); Some (JNum n, rest)
      end
  end
with readItems (fuel : nat) (s : list ascii)
  : option (list (json Z) * list ascii) :=
  match fuel with
  | O => None
  | S fuel =>
      '(item, rest) ← readValue fuel s;
      match skipSpace rest with
      | c :: r =>
          if Ascii.eqb c ","%char then
            '(items, rest') ← readItems fuel r; Some (item :: items, rest')
          else if Ascii.eqb c "]"%char then Some ([item], r)
          else None
      | [] => None
      end
  end.

Definition parse (text : string) : option (json Z) :=
  let s := chars text in
  match readValue (S (length s)) s with
  | Some (v, rest) =>
      match skipSpace rest with
      | [] => Some v
      | _ :: _ => None
      end
  | None => None
  end.

Definition newline : string := String (ascii_of_nat 10) "".

Definition quoted (s : string) : string :=
  String doubleQuote (s +:+ String doubleQuote "").

Definition decimal (n : Z) : string := NilZero.string_of_int (Z.to_int n).

Fixpoint joinLines (sep : string) (parts : list string) : string :=
  match parts with
  | [] => ""
  | [part] => part
  | part :: rest => part +:+ sep +:+ joinLines sep rest
  end.

Fixpoint print (indent : string) (v : json Z) : string :=
  let inner := indent +:+ "  " in
  let block (opening closing : string) (lines : list string) :=
    match lines with
    | [] => opening +:+ closing
    | _ => opening +:+ newline +:+ inner
           +:+ joinLines ("," +:+ newline +:+ inner) lines
           +:+ newline +:+ indent +:+ closing
    end in
  match v with
  | JNull => "null"
  | JBool true => "true"
  | JBool false => "false"
  | JNum n => decimal n
  | JStr s => quoted s
  | JArr items => block "[" "]" (map (print inner) items)
  | JObj members =>
      block "{" "}"
        (map (fun member => quoted (fst member) +:+ ": " +:+ print inner (snd member))
           members)
  end.

Definition stringify (v : json Z) : string := print "" v.

Definition lib : JsonLib Z :=
  {| JSON_parse := parse; JSON_stringify := stringify;
     JSON_parse_empty := eq_refl |}.

End JsonRef.

(** ** A store for running examples *)

Module Sample.
Import JsString.

Definition isHex (c : ascii) : bool :=
  let n := nat_of_ascii c in
  ((48 <=? n) && (n <=? 57) || (65 <=? n) && (n <=? 70)
   || (97 <=? n) && (n <=? 102))%nat.

(** Identifiers are 24 hexadecimal digits. *)
Definition isValid (id : string) : bool :=
  (String.length id =? 24)%nat && forallb isHex (chars id).

Definition hexDigit (n : nat) : ascii :=
  ascii_of_nat (if (n <? 10)%nat then 48 + n else 87 + n).

Definition hex (s : string) : list ascii :=
  flat_map (fun c => let n := nat_of_ascii c in
                     [hexDigit (n / 16); hexDigit (n mod 16)]) (chars s).

(** An identifier derived from the address, which is unique. *)
Definition newId (address : string) : string :=
  ofChars (firstn 24 (hex address ++ repeat "0"%char 24)).

(** Stands for the digest of bcrypt. *)
Definition digest (plain : string) : string := "$2a$10$" +:+ plain.

Definition normalize (address : string) : string := toLowerCase (trim address).

Definition invalid (message : string) : Error.t :=
  {| Error.name := "ValidationError"; Error.message := message;
     Error.code := None; Error.statusCode := None |}.

Definition build (userData : Body Z) : Error.t + User Z :=
  match property "name" userData, property "email" userData,
        property "password" userData, property "phone" userData with
  | Some (JStr n), Some (JStr e), Some (JStr p), Some (JStr t) =>
      inr {| _id := newId (normalize e); name := trim n; email := normalize e;
             password := p; phone := trim t;
             age := match property "age" userData with
                    | Some (JNum a) => Some a
                    | _ => None
                    end |}
  | _, _, _, _ => inl (invalid "User validation failed")
  end.

Definition set (change : string * json Z) (doc : User Z)
  : Error.t + User Z :=
  let '(key, v) := change in
  let updated n e p t a : User Z :=
    {| _id := _id doc; name := n; email := e; password := p; phone := t;
       age := a |} in
  inr match v with
      | JStr s =>
          if String.eqb key "name" then
            updated (trim s) (email doc) (password doc) (phone doc) (age doc)
          else if String.eqb key "email" then
            updated (name doc) (normalize s) (password doc) (phone doc) (age doc)
          else if String.eqb key "password" then
            updated (name doc) (email doc) s (phone doc) (age doc)
          else if String.eqb key "phone" then
            updated (name doc) (email doc) (password doc) (trim s) (age doc)
          else doc
      | JNum a =>
          if String.eqb key "age" then
            updated (name doc) (email doc) (password doc) (phone doc) (Some a)
          else doc
      | _ => doc
      end.

Definition mongoose : Mongoose Z :=
  {| ObjectId_isValid := isValid; bcrypt_hash := digest;
     castEmail := normalize; User_new := build; User_set := set |}.

(** Joi's verdict on a value, for the types and the length rule of
    strings only. *)
Definition joiValue (r : rule) (v : json Z) : option string :=
  match r, v with
  | JoiString (Some n) _ _, JStr s =>
      if (String.length s <? n)%nat then
        Some ("length must be at least " +:+ JsonRef.decimal (Z.of_nat n)
              +:+ " characters long")
      else None
  | JoiString _ _ _, JStr _ => None
  | JoiString _ _ _, _ => Some "must be a string"
  | JoiNumber _ _ _, JNum _ => None
  | JoiNumber _ _ _, _ => Some "must be a number"
  end.

(** The messages of Joi, the label between double quotes. *)
Definition detailMessage (d : detail) : string :=
  match d with
  | IsRequired key => JsonRef.quoted key +:+ " is required"
  | IsInvalid key reason => JsonRef.quoted key +:+ " " +:+ reason
  | NotAllowed key => JsonRef.quoted key +:+ " is not allowed"
  | ObjectMin limit =>
      JsonRef.quoted "value" +:+ " must have at least "
      +:+ JsonRef.decimal (Z.of_nat limit)
      +:+ (if (limit =? 1)%nat then " key" else " keys")
  end.

(** A stored user, and a collection holding her. *)
Definition ann : User Z :=
  @mkUser Z "65f1a0b2c3d4e5f601234567" "Ann" "ann@example.com"
    (digest "correct horse") "+4512345678" (Some 41%Z).

Definition annOnly : db Z := {| users := [ann]; queries := [] |}.

(** The data of a second user, and the document the schema builds. *)
Definition bobData : Body Z :=
  [ ("name", JStr "Bob"); ("email", JStr "bob@example.com");
    ("password", JStr "battery staple"); ("phone", JStr "+4511111111") ].

Definition bob : User Z :=
  @mkUser Z "626f62406578616d706c652e" "Bob" "bob@example.com"
    "battery staple" "+4511111111" None.

(** A request that repeats her address. *)
Definition annAgain : Body Z :=
  [ ("name", JStr "Ann B"); ("email", JStr "ann@example.com");
    ("password", JStr "another horse"); ("phone", JStr "+4587654321") ].

(** The payloads ["3"] and ["hello"], quotes included. *)
Definition payload3 : string := JsonRef.quoted "3".
Definition payloadHello : string := JsonRef.quoted "hello".

(** A tree holding the module's directory and its [files] directory. *)
Definition home : list string := ["srv"; "app"].

Definition tree (entries : list (string * string)) : Fs.world :=
  {| Fs.files :=
       list_to_map
         (([], Fs.Dir) :: (["srv"], Fs.Dir) :: (home, Fs.Dir)
          :: (home ++ ["files"], Fs.Dir)
          :: map (fun entry => (home ++ ["files"; fst entry], Fs.File (snd entry)))
               entries);
     Fs.trace := [] |}.

End Sample.


(** ** Listing the files directory and setting it up *)

Module FsDirectory.
Import JsString Path Fs FsService.

Definition EEXIST : Error.t := Error.system "EEXIST".

(** A name a directory entry can have: not empty, not [.] or [..], and
    without a separator. *)
Definition properName (name : string) : bool :=
  negb (String.eqb name "") && negb (String.eqb name ".")
  && negb (String.eqb name "..")
  && forallb (fun c => negb (Ascii.eqb c slash)) (chars name).

(** The names of the entries directly below [dir], in the order the map
    enumerates them. *)
Definition children (dir : path) (tree : gmap path node) : list string :=
  omap (fun entry : path * node =>
          match last (fst entry) with
          | Some name =>
              if bool_decide (fst entry = dir ++ [name]) then Some name else None
          | None => None
          end)
       (map_to_list tree).

(** [fs.readdir(dir)].  Listing and making directories are not recorded
    in the trace, which follows the calls on single entries. *)
Definition readdir (dir : path) : M world (list string) := fun w =>
  match files w !! dir with
  | Some Dir => (Ok (children dir (files w)), w)
  | Some (File _) => (Throw ENOTDIR, w)
  | None => (Throw ENOENT, w)
  end.

(** [fs.mkdir(p, { recursive: true })], walking down from [done]: a
    missing directory is made, an existing one is kept, and a regular
    file in the way is an error.  On an error nothing was made, since in
    a tree everything above a regular file exists. *)
Fixpoint mkdirFrom (done : path) (rest : list string) (tree : gmap path node)
  : Error.t + gmap path node :=
  match tree !! done with
  | Some (File _) =>
      inl (match rest with [] => EEXIST | _ :: _ => ENOTDIR end)
  | found =>
      let tree' := match found with
                   | None => <[done := Dir]> tree
                   | Some _ => tree
                   end in
      match rest with
      | [] => inr tree'
      | seg :: rest' => mkdirFrom (done ++ [seg]) rest' tree'
      end
  end.

Definition mkdir (p : path) : M world unit := fun w =>
  match mkdirFrom [] p (files w) with
  | inl e => (Throw e, w)
  | inr tree => (Ok tt, {| files := tree; trace := trace w |})
  end.

(** [Promise.all(promises)]: every promise runs; the result is the list
    of their values, or the first rejection. *)
Fixpoint settleAll {S A} (promises : list (M S A)) (s : S)
  : list (outcome A) * S :=
  match promises with
  | [] => ([], s)
  | m :: rest =>
      let '(o, s') := m s in
      let '(os, s'') := settleAll rest s' in
      (o :: os, s'')
  end.

Fixpoint firstRejection {A} (os : list (outcome A)) : outcome (list A) :=
  match os with
  | [] => Ok []
  | Throw e :: _ => Throw e
  | Ok a :: rest =>
      match firstRejection rest with
      | Ok others => Ok (a :: others)
      | Throw e => Throw e
      end
  end.

Definition Promise_all {S A} (promises : list (M S A)) : M S (list A) :=
  fun s => let '(os, s') := settleAll promises s in (firstRejection os, s').

(** One element of the [files] array of [listFiles], without its times. *)
Record FileDetail := {
  detailName : string;
  detailSize : nat;
  detailPath : path;
}.

(** What [listFiles] resolves with. *)
Record Listing := {
  listingSuccess : bool;
  count : nat;
  listed : list FileDetail;
}.

Section Directory.
Variable __dirname : path.

Definition ensureDirectoryExists : M world unit :=
  tryCatch (access (FILES_DIR __dirname))
    (fun error =>
       if Error.hasCode error (Error.Str "ENOENT") then
         mkdir (FILES_DIR __dirname)
       else throw error).

(** The size listed for a subdirectory is whatever the file system
    reports; only the sizes of regular files are meaningful here. *)
Definition listFiles : M world Listing :=
  await names <- readdir (FILES_DIR __dirname);
  await fileDetails <-
    Promise_all
      (map (fun filename =>
              let filePath := join (FILES_DIR __dirname) filename in
              await stats <- stat filePath;
              ret {| detailName := filename; detailSize := size stats;
                     detailPath := filePath |})
         names);
  ret {| listingSuccess := true; count := length names;
         listed := fileDetails |}.

(** [router.get("/list", ...)] *)
Definition getList : world -> Response.t Listing * world :=
  handle listFiles
    (fun result => apiSuccess 200 "Files retrieved successfully!" (Some result))
    (fun _ => apiError 500 "Internal Server Error" "Failed to list files").

(** Every directory from the root down to the module's directory is
    there, as it is whenever the module could be loaded. *)
Definition mounted (w : world) : Prop :=
  forall n : nat, files w !! take n __dirname = Some Dir.

End Directory.

End FsDirectory.

(** ** The global error handler *)

Module ErrorHandler.








End ErrorHandler.


(** * Properties *)

(** ** Strings and paths *)

Section StringFacts.
Import JsString.

Lemma chars_ofChars (l : list ascii) : chars (ofChars l) = l.
Proof. apply list_ascii_of_string_of_list_ascii. Qed.

Lemma ofChars_chars (s : string) : ofChars (chars s) = s.
Proof. apply string_of_list_ascii_of_string. Qed.

Lemma chars_app (a b : string) : chars (a +:+ b) = chars a ++ chars b.
Proof. induction a as [|c a IH]; simpl; [reflexivity | now rewrite <- IH]. Qed.

Lemma isEmpty_false (s : string) : s <> "" -> isEmpty s = false.
Proof. destruct s; [congruence | reflexivity]. Qed.

Lemma startsWithChars_app (p rest : list ascii) :
  startsWithChars p (p ++ rest) = true.
Proof.
  induction p as [|c p IH]; simpl; [reflexivity|].
  now rewrite Ascii.eqb_refl.
Qed.

Lemma includesChars_unfold (needle hay : list ascii) :
  includesChars needle hay =
  if startsWithChars needle hay then true
  else match hay with [] => false | _ :: hay' => includesChars needle hay' end.
Proof. destruct hay; reflexivity. Qed.

Lemma includesChars_app (before needle after : list ascii) :
  includesChars needle (before ++ needle ++ after) = true.
Proof.
  induction before as [|c before IH]; rewrite includesChars_unfold.
  - simpl app. now rewrite startsWithChars_app.
  - change ((c :: before) ++ needle ++ after)
      with (c :: (before ++ needle ++ after)).
    cbv iota. rewrite IH. now destruct (startsWithChars needle _).
Qed.

Lemma includes_app (before needle after : string) :
  includes (before +:+ needle +:+ after) needle = true.
Proof.
  unfold includes. rewrite !chars_app. apply includesChars_app.
Qed.

(** The shape of the service's messages: a needle after a quoted name. *)
Lemma includes_message (a name b needle c : string) :
  includes (a +:+ name +:+ b +:+ needle +:+ c) needle = true.
Proof.
  unfold includes. rewrite !chars_app.
  rewrite (app_assoc (chars a)), (app_assoc (chars a ++ chars name)).
  apply includesChars_app.
Qed.

Lemma isQuote_cases (q : ascii) :
  isQuote q = true -> q = singleQuote \/ q = doubleQuote.
Proof.
  unfold isQuote. intros Hq. apply orb_true_iff in Hq.
  destruct Hq as [Hq|Hq]; apply Ascii.eqb_eq in Hq; auto.
Qed.

(** A quote is the first byte of no white space character, and the last
    byte of none. *)
Lemma trimChars_quote (q : ascii) (l : list ascii) (fuel : nat) :
  isQuote q = true ->
  trimChars whiteSpace fuel (q :: l) = q :: l /\
  trimChars (map (@rev ascii) whiteSpace) fuel (q :: l) = q :: l.
Proof.
  intros Hq. destruct fuel; [split; reflexivity|].
  destruct (isQuote_cases q Hq) as [-> | ->]; split; reflexivity.
Qed.

Lemma chars_quoted (q1 q2 : ascii) (s : string) :
  chars (String q1 (s +:+ String q2 "")) = (q1 :: chars s) ++ [q2].
Proof.
  change (chars (String q1 (s +:+ String q2 "")))
    with (q1 :: chars (s +:+ String q2 "")).
  now rewrite chars_app.
Qed.

Lemma trimStartChars_quote (q : ascii) (l : list ascii) :
  isQuote q = true -> trimStartChars (q :: l) = q :: l.
Proof. intros Hq. apply (trimChars_quote q l _ Hq). Qed.

Lemma trimEndChars_quote (q : ascii) (l : list ascii) :
  isQuote q = true -> trimEndChars (l ++ [q]) = l ++ [q].
Proof.
  intros Hq. unfold trimEndChars.
  rewrite rev_unit, (proj2 (trimChars_quote q _ _ Hq)).
  simpl rev. now rewrite rev_involutive.
Qed.

Lemma trim_quoted (q1 q2 : ascii) (s : string) :
  isQuote q1 = true -> isQuote q2 = true ->
  trim (String q1 (s +:+ String q2 "")) = String q1 (s +:+ String q2 "").
Proof.
  intros H1 H2. unfold trim. rewrite chars_quoted.
  rewrite <- app_comm_cons, (trimStartChars_quote q1 _ H1).
  rewrite app_comm_cons, (trimEndChars_quote q2 _ H2).
  rewrite <- chars_quoted. apply ofChars_chars.
Qed.

Lemma stripQuotes_quoted (q1 q2 : ascii) (s : string) :
  isQuote q1 = true -> isQuote q2 = true ->
  stripQuotes (String q1 (s +:+ String q2 "")) = s.
Proof.
  intros H1 H2. unfold stripQuotes. rewrite chars_quoted.
  change ((q1 :: chars s) ++ [q2]) with (q1 :: (chars s ++ [q2])).
  unfold dropLeadingQuote at 2. rewrite H1, rev_unit.
  unfold dropLeadingQuote. rewrite H2, rev_involutive.
  apply ofChars_chars.
Qed.

End StringFacts.

Section PathFacts.
Import JsString Path FsService.

Lemma takeSegment_no_slash (l : list ascii) :
  Forall (fun c => c <> slash) (takeSegment l).
Proof.
  induction l as [|c l IH]; simpl; [constructor|].
  destruct (Ascii.eqb c slash) eqn:E; constructor; [|exact IH].
  now apply Ascii.eqb_neq.
Qed.

Lemma segments_no_slash (l : list ascii) :
  Forall (fun c => c <> slash) l -> segments l = [l].
Proof.
  induction 1 as [|c l Hc _ IH]; simpl; [reflexivity|].
  apply Ascii.eqb_neq in Hc. now rewrite Hc, IH.
Qed.

(** The final segment holds no separator, so joining it to a directory
    enters at most one level. *)
Lemma join_basename (dir : path) (filename : string) :
  join dir (basename filename) = enter dir (basename filename).
Proof.
  unfold join, basename. rewrite chars_ofChars.
  rewrite segments_no_slash.
  - reflexivity.
  - apply Forall_rev, takeSegment_no_slash.
Qed.

Lemma FILES_DIR_files (dirname : path) : FILES_DIR dirname = dirname ++ ["files"].
Proof. reflexivity. Qed.

Lemma resolved_cases (dirname : path) (filename : string) :
  resolved dirname filename = FILES_DIR dirname \/
  resolved dirname filename = dirname \/
  (resolved dirname filename = FILES_DIR dirname ++ [basename filename] /\
   removelast (resolved dirname filename) = FILES_DIR dirname).
Proof.
  unfold resolved. rewrite join_basename. unfold enter.
  destruct (_ || _); [now left|].
  destruct (String.eqb _ ".."); right.
  - left. rewrite FILES_DIR_files. apply removelast_last.
  - right. split; [reflexivity | apply removelast_last].
Qed.

End PathFacts.

(** ** The file service *)

(** Run the monadic glue of a service, leaving the calls of [fs]. *)
Ltac run :=
  cbv beta iota zeta delta [orb negb bind tryCatch throw ret].

(** The calls a run added to the trace all have the expected target. *)
Ltac targeted E :=
  simpl; repeat (rewrite ?E, ?lookup_insert_eq; simpl);
  rewrite <- ?app_assoc; eexists;
  (split; [first [reflexivity | symmetry; apply app_nil_r]
          | repeat constructor]).

(** Finish a goal on the trace of a run once the lookup [E] is known. *)
Ltac traced E :=
  simpl; repeat (rewrite ?E, ?lookup_insert_eq; simpl);
  rewrite <- ?app_assoc; eexists; reflexivity.

Section FsFacts.
Import JsString Path Fs FsService.
Context {number : Type} {JSON : JsonLib number}.
Variable dirname : path.

Lemma access_found (p : path) (w : world) :
  is_Some (files w !! p) -> access p w = (Ok tt, called (Access p) w).
Proof. intros [n Hn]. unfold access. simpl. now rewrite Hn. Qed.

Lemma access_missing (p : path) (w : world) :
  files w !! p = None -> access p w = (Throw ENOENT, called (Access p) w).
Proof. intros Hn. unfold access. simpl. now rewrite Hn. Qed.

Lemma mustExist_found (p : path) (notFound : string) (w : world) :
  is_Some (files w !! p) ->
  mustExist p notFound w = (Ok tt, called (Access p) w).
Proof.
  intros Hp. unfold mustExist. run. now rewrite access_found.
Qed.

(** Whatever exists at the resolved path, [createFile] rejects once it
    has seen it, and touches nothing. *)
Lemma createFile_existing (filename content : string) (w : world) :
  filename <> "" -> content <> "" ->
  is_Some (files w !! resolved dirname filename) ->
  createFile dirname filename content w =
  (Throw (Error.new ("File '" +:+ basename filename +:+ "' already exists")),
   called (Access (resolved dirname filename)) w).
Proof.
  intros Hf Hc Hp. unfold createFile.
  rewrite (isEmpty_false _ Hf), (isEmpty_false _ Hc). run.
  fold (resolved dirname filename).
  now rewrite (access_found _ _ Hp).
Qed.

(** On a free path below an existing directory the file is written. *)
Lemma createFile_free (filename content : string) (w : world) :
  filename <> "" -> content <> "" ->
  files w !! resolved dirname filename = None ->
  files w !! removelast (resolved dirname filename) = Some Dir ->
  exists created,
    createFile dirname filename content w =
    (Ok created,
     store (resolved dirname filename) (File content)
       (called (WriteFile (resolved dirname filename) content)
          (called (Access (resolved dirname filename)) w))).
Proof.
  intros Hf Hc Hp Hparent. unfold createFile.
  rewrite (isEmpty_false _ Hf), (isEmpty_false _ Hc). run.
  fold (resolved dirname filename).
  rewrite (access_missing _ _ Hp). simpl.
  unfold writeFile. simpl. rewrite Hp. unfold create. simpl. rewrite Hparent.
  eexists. reflexivity.
Qed.

Lemma readFile_file (filename text : string) (w : world) :
  filename <> "" ->
  files w !! resolved dirname filename = Some (File text) ->
  exists read w',
    readFile dirname filename w = (Ok read, w') /\
    FileResult.content read = Some text /\
    FileResult.size read = Some (String.length text) /\
    files w' = files w.
Proof.
  intros Hf Hp. unfold readFile.
  rewrite (isEmpty_false _ Hf). run.
  fold (resolved dirname filename).
  rewrite mustExist_found by (rewrite Hp; eauto).
  unfold Fs.readFile. simpl. rewrite Hp. unfold stat. simpl. rewrite Hp.
  do 2 eexists. repeat split; reflexivity.
Qed.

(** C7: on a ready store, for every non-empty filename whose resolved
    path is free and every non-empty content, [createFile] succeeds and a
    following [readFile] of the same filename succeeds with exactly the
    content that was passed to [createFile]. *)
Theorem create_then_read_round_trip (filename content : string) (w : world) :
  ready dirname w ->
  filename <> "" -> content <> "" ->
  files w !! resolved dirname filename = None ->
  exists created w1 read w2,
    createFile dirname filename content w = (Ok created, w1) /\
    readFile dirname filename w1 = (Ok read, w2) /\
    FileResult.content read = Some content.
Proof.
  intros [Hhome Hbase] Hf Hc Hfree.
  assert (Hparent : files w !! removelast (resolved dirname filename) = Some Dir).
  { destruct (resolved_cases dirname filename) as [E|[E|[_ E]]].
    - rewrite E in Hfree. congruence.
    - rewrite E in Hfree. congruence.
    - now rewrite E. }
  destruct (createFile_free filename content w Hf Hc Hfree Hparent)
    as [created Hcreate].
  destruct (readFile_file filename content
              (store (resolved dirname filename) (File content)
                 (called (WriteFile (resolved dirname filename) content)
                    (called (Access (resolved dirname filename)) w))) Hf)
    as (read & w2 & Hread & Hcontent & _).
  { simpl. apply lookup_insert_eq. }
  eexists created, _, read, w2. eauto.
Qed.

(** C8, as the code has it: for every non-empty filename whose resolved
    path exists and every non-empty content, [createFile] rejects with
    the already-exists error, the route answers 409 Conflict, and the
    stored files are unchanged. *)
Theorem create_existing_is_conflict (filename content : string) (w : world) :
  filename <> "" -> content <> "" ->
  is_Some (files w !! resolved dirname filename) ->
  exists w',
    createFile dirname filename content w =
    (Throw (Error.new ("File '" +:+ basename filename +:+ "' already exists")), w') /\
    postCreate dirname (Some filename) (Some content) w =
    (apiError 409 "Conflict" ("File '" +:+ basename filename +:+ "' already exists"),
     w') /\
    files w' = files w.
Proof.
  intros Hf Hc Hp. eexists. split; [|split].
  - apply createFile_existing; assumption.
  - unfold postCreate, falsy, text, handle. simpl default.
    rewrite (isEmpty_false _ Hf), (isEmpty_false _ Hc). run.
    rewrite createFile_existing by assumption.
    unfold Error.new. simpl Error.message. simpl default.
    change "' already exists" with ("' " +:+ "already exists" +:+ "").
    now rewrite includes_message.
  - reflexivity.
Qed.

(** [appendToFile] on an existing file: past the checks, the work is
    the byte append or the JSON merge. *)
Lemma appendToFile_existing (filename content : string) (w : world) :
  filename <> "" -> content <> "" ->
  is_Some (files w !! resolved dirname filename) ->
  appendToFile dirname filename content w =
  let w0 := called (Access (resolved dirname filename)) w in
  if isJsonFile (basename filename) then
    appendToJsonFile (resolved dirname filename) content (basename filename) w0
  else
    bind (appendFile (resolved dirname filename) content)
      (fun _ => bind (stat (resolved dirname filename))
         (fun stats =>
            ret {| FileResult.success := true;
                   FileResult.message :=
                     Some ("Content appended to '" +:+ basename filename
                           +:+ "' successfully");
                   FileResult.filename := basename filename;
                   FileResult.content := None;
                   FileResult.size := None;
                   FileResult.newSize := Some (size stats);
                   FileResult.arrayLength := None;
                   FileResult.path := resolved dirname filename |})) w0.
Proof.
  intros Hf Hc Hp. unfold appendToFile.
  rewrite (isEmpty_false _ Hf), (isEmpty_false _ Hc).
  cbv beta iota zeta delta [orb]. fold (resolved dirname filename).
  unfold bind at 1. rewrite (mustExist_found _ _ _ Hp).
  now destruct (isJsonFile (basename filename)).
Qed.

(** C3: for every existing file whose name does not end in [.json] and
    every non-empty content, [appendToFile] succeeds, the file holds the
    old content followed by the new content and nothing else is changed,
    and a following [readFile] returns exactly that concatenation. *)
Theorem append_then_read_concatenates
    (filename content old : string) (w : world) :
  filename <> "" -> content <> "" ->
  files w !! resolved dirname filename = Some (File old) ->
  isJsonFile (basename filename) = false ->
  exists appended w1 read w2,
    appendToFile dirname filename content w = (Ok appended, w1) /\
    files w1 = <[resolved dirname filename := File (old +:+ content)]> (files w) /\
    FileResult.newSize appended = Some (String.length (old +:+ content)) /\
    readFile dirname filename w1 = (Ok read, w2) /\
    FileResult.content read = Some (old +:+ content).
Proof.
  intros Hf Hc Hp Hjson.
  rewrite appendToFile_existing by (try rewrite Hp; eauto).
  rewrite Hjson. run.
  unfold appendFile. simpl. rewrite Hp.
  unfold stat. simpl. rewrite lookup_insert_eq.
  destruct (readFile_file filename (old +:+ content)
    (called (Stat (resolved dirname filename))
       (store (resolved dirname filename) (File (old +:+ content))
          (called (AppendFile (resolved dirname filename) content)
             (called (Access (resolved dirname filename)) w)))) Hf)
    as (read & w2 & Hread & Hcontent & _).
  { simpl. apply lookup_insert_eq. }
  eexists _, _, read, w2. repeat split; eauto.
Qed.

Lemma isJsonFile_nonempty (filename : string) :
  isJsonFile (basename filename) = true -> filename <> "".
Proof. intros Hj ->. discriminate Hj. Qed.

Lemma parsed_nonempty (content : string) (v : json number) :
  JSON_parse (stripQuotes (trim content)) = Some v -> content <> "".
Proof.
  intros Hv ->. change (stripQuotes (trim "")) with "" in Hv.
  rewrite JSON_parse_empty in Hv. discriminate.
Qed.

(** C1: for every append to an existing file whose name ends in [.json],
    where the file's content parses to [a] and the trimmed, quote-stripped
    payload parses to [b], [appendToFile] succeeds, the file then holds
    the pretty-printed array [ensureArray a ++ ensureArray b], and the
    reported [arrayLength] is the length of that array. *)
Theorem append_json_merges_arrays
    (filename content current : string) (a b : json number) (w : world) :
  files w !! resolved dirname filename = Some (File current) ->
  isJsonFile (basename filename) = true ->
  JSON_parse current = Some a ->
  JSON_parse (stripQuotes (trim content)) = Some b ->
  exists appended w1,
    appendToFile dirname filename content w = (Ok appended, w1) /\
    files w1 =
      <[resolved dirname filename :=
          File (JSON_stringify (JArr (ensureArray a ++ ensureArray b)))]>
        (files w) /\
    FileResult.arrayLength appended =
      Some (length (ensureArray a ++ ensureArray b)).
Proof.
  intros Hp Hjson Ha Hb.
  rewrite appendToFile_existing;
    [| now apply isJsonFile_nonempty | now apply (parsed_nonempty _ b)
     | rewrite Hp; eauto ].
  rewrite Hjson. unfold appendToJsonFile. run.
  unfold Fs.readFile. simpl. rewrite Hp, Ha, Hb.
  unfold writeFile. simpl. rewrite Hp.
  unfold stat. simpl. rewrite lookup_insert_eq.
  eexists _, _. repeat split; reflexivity.
Qed.

(** C10, as the code has it: on an existing [.json] file whose content
    parses, a payload made of a quote, a text [s] that is no JSON text,
    and a quote is rejected with the invalid-content error, and the
    stored files are unchanged. *)
Theorem append_json_quoted_text_rejected
    (filename s current : string) (q1 q2 : ascii) (a : json number)
    (w : world) :
  files w !! resolved dirname filename = Some (File current) ->
  isJsonFile (basename filename) = true ->
  JSON_parse current = Some a ->
  isQuote q1 = true -> isQuote q2 = true ->
  JSON_parse s = None ->
  exists w1,
    appendToFile dirname filename (String q1 (s +:+ String q2 "")) w =
    (Throw (Error.new ("Invalid JSON content to append: "
                       +:+ String q1 (s +:+ String q2 ""))), w1) /\
    files w1 = files w.
Proof.
  intros Hp Hjson Ha H1 H2 Hs.
  rewrite appendToFile_existing;
    [| now apply isJsonFile_nonempty | discriminate | rewrite Hp; eauto ].
  rewrite Hjson. unfold appendToJsonFile. run.
  unfold Fs.readFile. simpl. rewrite Hp, Ha.
  rewrite trim_quoted, stripQuotes_quoted, Hs by assumption.
  eexists. split; reflexivity.
Qed.

(** *** Where the resolved path lies *)

Lemma inside_child (dir : path) (name : string) :
  inside dir (dir ++ [name]) = true.
Proof.
  unfold inside. rewrite length_app, take_app_length. simpl.
  rewrite bool_decide_eq_true_2 by reflexivity.
  rewrite andb_true_r. apply Nat.ltb_lt. lia.
Qed.

Lemma inside_parent (dir : path) (name : string) :
  inside (dir ++ [name]) dir = false.
Proof.
  unfold inside. rewrite length_app. simpl.
  replace (length dir + 1 <? length dir)%nat with false; [reflexivity|].
  symmetry. apply Nat.ltb_ge. lia.
Qed.

(** Every filename whose final segment is a name resolves to an entry of
    the [files] directory. *)
Lemma resolved_inside (filename : string) :
  basename filename <> "" -> basename filename <> "." ->
  basename filename <> ".." ->
  resolved dirname filename = FILES_DIR dirname ++ [basename filename] /\
  inside (FILES_DIR dirname) (resolved dirname filename) = true.
Proof.
  intros H0 H1 H2. unfold resolved. rewrite join_basename. unfold enter.
  apply String.eqb_neq in H0, H1, H2. rewrite H0, H1, H2. simpl.
  split; [reflexivity | apply inside_child].
Qed.

Lemma resolved_dotdot : resolved dirname ".." = dirname.
Proof.
  unfold resolved. rewrite join_basename.
  change (basename "..") with "..". unfold enter. simpl.
  rewrite FILES_DIR_files. apply removelast_last.
Qed.

(** Every call an operation makes to [fs] is on the path resolved from
    the final segment of its filename. *)
Lemma calls_target_resolved (filename content : string) (w : world) :
  let on_resolved (w' : world) :=
    exists calls, trace w' = trace w ++ calls /\
                  Forall (fun c => target c = resolved dirname filename) calls in
  on_resolved (snd (createFile dirname filename content w)) /\
  on_resolved (snd (readFile dirname filename w)) /\
  on_resolved (snd (appendToFile dirname filename content w)) /\
  on_resolved (snd (deleteFile dirname filename w)).
Proof.
  cbv zeta. repeat split.
  - unfold createFile. destruct (isEmpty filename); [targeted I|].
    destruct (isEmpty content); [targeted I|]. run.
    fold (resolved dirname filename).
    unfold access, writeFile, create. simpl.
    destruct (files w !! resolved dirname filename) as [[|]|] eqn:E;
      [targeted E | targeted E|].
    simpl. rewrite E.
    destruct (files w !! removelast (resolved dirname filename))
      as [[|]|] eqn:E'; targeted E'.
  - unfold readFile, mustExist. destruct (isEmpty filename); [targeted I|].
    run. fold (resolved dirname filename).
    unfold access, Fs.readFile, stat. simpl.
    destruct (files w !! resolved dirname filename) as [[|]|] eqn:E;
      targeted E.
  - unfold appendToFile, mustExist. destruct (isEmpty filename); [targeted I|].
    destruct (isEmpty content); [targeted I|]. run.
    fold (resolved dirname filename).
    unfold access. simpl.
    destruct (files w !! resolved dirname filename) as [[current|]|] eqn:E;
      simpl; [| |targeted E];
      (destruct (isJsonFile (basename filename));
       [unfold appendToJsonFile; run; unfold Fs.readFile, writeFile, stat
       |unfold appendFile, stat]); simpl; rewrite E; try targeted E.
    destruct (JSON_parse current); [|targeted E].
    destruct (JSON_parse (stripQuotes (trim content))); targeted E.
  - unfold deleteFile, mustExist. destruct (isEmpty filename); [targeted I|].
    run. fold (resolved dirname filename).
    unfold access, unlink. simpl.
    destruct (files w !! resolved dirname filename) as [[|]|] eqn:E;
      targeted E.
Qed.

(** C2, at the filename [..]: its final segment is [..] itself, the
    resolved path is the parent of the [files] directory, which is not
    inside it, and each of the four operations starts by probing that
    path with [fs.access]. *)
Theorem dotdot_escapes_files_directory (w : world) :
  basename ".." = ".." /\
  resolved dirname ".." = dirname /\
  inside (FILES_DIR dirname) (resolved dirname "..") = false /\
  (exists rest, trace (snd (createFile dirname ".." "x" w))
                = trace w ++ Access dirname :: rest) /\
  (exists rest, trace (snd (readFile dirname ".." w))
                = trace w ++ Access dirname :: rest) /\
  (exists rest, trace (snd (appendToFile dirname ".." "x" w))
                = trace w ++ Access dirname :: rest) /\
  (exists rest, trace (snd (deleteFile dirname ".." w))
                = trace w ++ Access dirname :: rest).
Proof.
  split; [reflexivity|]. split; [apply resolved_dotdot|].
  split; [rewrite resolved_dotdot; apply inside_parent|].
  pose proof resolved_dotdot as Hr. unfold resolved in Hr.
  change (basename "..") with ".." in Hr.
  repeat split.
  - unfold createFile. run. change (basename "..") with "..". rewrite Hr.
    unfold access, writeFile, create. simpl.
    destruct (files w !! dirname) as [[|]|] eqn:E;
      [traced E | traced E |].
    simpl. rewrite E.
    destruct (files w !! removelast dirname) as [[|]|] eqn:E'; traced E'.
  - unfold readFile, mustExist. run. change (basename "..") with "..".
    rewrite Hr. unfold access, Fs.readFile, stat. simpl.
    destruct (files w !! dirname) as [[|]|] eqn:E; traced E.
  - unfold appendToFile, mustExist. run. change (basename "..") with "..".
    rewrite Hr. change (isJsonFile "..") with false.
    unfold access, appendFile, stat. simpl.
    destruct (files w !! dirname) as [[|]|] eqn:E; traced E.
  - unfold deleteFile, mustExist. run. change (basename "..") with "..".
    rewrite Hr. unfold access, unlink. simpl.
    destruct (files w !! dirname) as [[|]|] eqn:E; traced E.
Qed.

End FsFacts.


(** ** The user API *)

Section UserFacts.
Context {number : Type} {mongo : Mongoose number}.
Local Abbreviation User := (User number).
Local Abbreviation Body := (Body number).
Local Abbreviation db := (db number).


(** C9: for every id that [ObjectId.isValid] refuses, the routes for
    getById, update and delete all answer 400 Invalid ID from the one
    middleware in front of them, and the store is returned as it was: no
    query was sent and no user changed. *)
Theorem malformed_id_rejected_before_storage
    (id : string) (body : Body) (d : db) :
  ObjectId_isValid id = false ->
  userRoutes (GetUser id) d = (invalidId, d) /\
  userRoutes (PutUser id body) d = (invalidId, d) /\
  userRoutes (DeleteUser id) d = (invalidId, d).
Proof.
  intros Hid. unfold userRoutes, checkUserExists. rewrite Hid.
  repeat split; reflexivity.
Qed.

Lemma find_sameEmail (address : string) (user : User) (docs : list User) :
  In user docs -> email user = address ->
  exists found, List.find (sameEmail address) docs = Some found.
Proof.
  intros Hin Hmail. induction docs as [|u docs IH]; [contradiction|].
  simpl. destruct (sameEmail address u) eqn:E; [eauto|].
  destruct Hin as [->|Hin]; [|auto].
  unfold sameEmail in E. rewrite Hmail, String.eqb_refl in E. discriminate.
Qed.

(** For a request whose email is the email of a stored user, the
    service rejects with [statusCode] 409 but the controller, which
    reads [code], answers 400; no user is added. *)
Lemma createUser_duplicate_email (body : Body) (user : User) (d : db) :
  In user (users d) ->
  emailOf body = Some (email user) ->
  castEmail (email user) = email user ->
  createUser body d =
  (apiError 400 "Create User Failed"
     "A user with this email address already exists.",
   sent (FindOne (Some (email user))) d).
Proof.
  intros Hin Hbody Hcast.
  destruct (find_sameEmail (email user) user (users d) Hin eq_refl)
    as [found Hfound].
  unfold createUser, respond, createUserService, User_findOne. run.
  rewrite Hbody. cbn [users sent]. now rewrite Hcast, Hfound.
Qed.

Lemma find_In (id : string) (docs : list User) (user : User) :
  List.find (sameId id) docs = Some user -> In user docs.
Proof. intros Hf. now apply List.find_some in Hf. Qed.

Lemma replace_In (id : string) (doc user : User) (docs : list User) :
  List.find (sameId id) docs = Some user -> In doc (replace id doc docs).
Proof.
  induction docs as [|u docs IH]; simpl; [discriminate|].
  destruct (sameId id u); [now left | right; auto].
Qed.

Lemma unredacted_toJSON (d : db) (user : User) :
  In user (users d) -> unredacted d (toJSON user).
Proof. intros Hin. exists user. repeat split; assumption || reflexivity. Qed.

(** C6, as the code has it: every user record in the reply to a create,
    list, getById or update request (and to any request of the router) is
    a stored user serialised with all its paths: it has the [password]
    property, holding the stored password. *)
Theorem replies_return_stored_password (req : request) (d : db) :
  Forall (unredacted (snd (userRoutes req d))) (records (fst (userRoutes req d))).
Proof.
  destruct req as [body| |id|id body|id]; unfold userRoutes.
  - unfold createUser, respond, createUserService, User_findOne, User_create.
    run.
    destruct (emailOf body) as [address|]; simpl.
    + destruct (List.find _ (users d)); simpl; [constructor|].
      destruct (User_new body) as [invalid|doc]; simpl; [constructor|].
      destruct (existsb _ (users d)); simpl; [constructor|].
      constructor; [|constructor]. apply unredacted_toJSON. simpl.
      apply in_or_app. right. now left.
    + destruct (User_new body) as [invalid|doc]; simpl; [constructor|].
      destruct (existsb _ (users d)); simpl; [constructor|].
      constructor; [|constructor]. apply unredacted_toJSON. simpl.
      apply in_or_app. right. now left.
  - unfold getAllUsers, respond, getUsersService, User_find, records. run.
    simpl. apply Forall_forall. intros r Hr.
    apply list_elem_of_In, in_map_iff in Hr.
    destruct Hr as (user & <- & Hin). now apply unredacted_toJSON.
  - unfold checkUserExists, getUserByIdService, User_findById, getUserById.
    run. destruct (ObjectId_isValid id); simpl; [|constructor].
    destruct (List.find (sameId id) (users d)) as [user|] eqn:E; simpl;
      [|constructor].
    constructor; [|constructor]. apply unredacted_toJSON. simpl.
    now apply (find_In id).
  - unfold checkUserExists, getUserByIdService, User_findById.
    run. destruct (ObjectId_isValid id) eqn:V; simpl; [|constructor].
    destruct (List.find (sameId id) (users d)) as [user|] eqn:E; simpl;
      [|constructor].
    unfold updateUser, respond, updateUserService, User_findByIdAndUpdate.
    run. rewrite V. simpl. rewrite E.
    destruct (applyUpdates body user) as [invalid|doc]; simpl; [constructor|].
    destruct (existsb _ (users d)); simpl; [constructor|].
    constructor; [|constructor]. apply unredacted_toJSON. simpl.
    now apply (replace_In id doc user).
  - unfold checkUserExists, getUserByIdService, User_findById.
    run. destruct (ObjectId_isValid id) eqn:V; simpl; [|constructor].
    destruct (List.find (sameId id) (users d)) as [user|] eqn:E; simpl;
      [|constructor].
    unfold deleteUser, respond, deleteUserService, User_findByIdAndDelete.
    run. rewrite V. simpl. rewrite E. constructor.
Qed.

(** The update schema refuses a body without keys. *)
Lemma updateUserSchema_empty (joiValue : rule -> json number -> option string) :
  schemaValidate joiValue updateUserSchema [] = Some [ObjectMin 1].
Proof. reflexivity. Qed.

End UserFacts.

(** ** The services on sample stores *)

Import JsString Path Fs FsService.
Import Sample.

(** Creating [notes/todo.txt] in an empty [files] directory and reading
    it back. *)
Lemma create_then_read_round_trip_witness :
  exists created w1 read w2,
    createFile home "notes/todo.txt" "buy milk" (Sample.tree []) = (Ok created, w1) /\
    readFile home "notes/todo.txt" w1 = (Ok read, w2) /\
    FileResult.content read = Some "buy milk".
Proof.
  apply create_then_read_round_trip;
    [split; reflexivity | discriminate | discriminate | reflexivity].
Defined.

(** Creating [a.txt] again, with content, is a conflict. *)
Lemma create_existing_is_conflict_witness :
  exists w',
    createFile home "a.txt" "again" (Sample.tree [("a.txt", "hi")]) =
    (Throw (Error.new "File 'a.txt' already exists"), w') /\
    postCreate home (Some "a.txt") (Some "again") (Sample.tree [("a.txt", "hi")]) =
    (apiError 409 "Conflict" "File 'a.txt' already exists", w') /\
    files w' = files (Sample.tree [("a.txt", "hi")]).
Proof.
  apply (create_existing_is_conflict home "a.txt" "again");
    [discriminate | discriminate | eexists; reflexivity].
Defined.

(** C8 as stated fails: [a.txt] exists, yet creating it with an empty
    content is answered 400 Validation Error, not 409 Conflict, both by
    the route and, as a required-field error, by the service. *)
Lemma create_existing_empty_content_is_400 :
  is_Some (files (Sample.tree [("a.txt", "hi")]) !! resolved home "a.txt") /\
  fst (postCreate home (Some "a.txt") (Some "") (Sample.tree [("a.txt", "hi")])) =
    apiError 400 "Validation Error" "Both filename and content are required" /\
  fst (createFile home "a.txt" "" (Sample.tree [("a.txt", "hi")])) =
    Throw (Error.new "Filename and content are required") /\
  Response.statusCode
    (fst (postCreate home (Some "a.txt") (Some "") (Sample.tree [("a.txt", "hi")])))
    <> 409%Z.
Proof.
  split; [eexists; reflexivity|]. repeat split. discriminate.
Defined.

(** Appending to [a.txt] and reading it back. *)
Lemma append_then_read_concatenates_witness :
  exists appended w1 read w2,
    appendToFile (JSON := JsonRef.lib) home "a.txt" " there"
      (Sample.tree [("a.txt", "hi")]) = (Ok appended, w1) /\
    files w1 = <[resolved home "a.txt" := File "hi there"]>
                 (files (Sample.tree [("a.txt", "hi")])) /\
    FileResult.newSize appended = Some 8 /\
    readFile home "a.txt" w1 = (Ok read, w2) /\
    FileResult.content read = Some "hi there".
Proof.
  apply (append_then_read_concatenates (JSON := JsonRef.lib) home "a.txt" " there" "hi");
    [discriminate | discriminate | reflexivity | reflexivity].
Defined.

(** The file [data.json] holds [[1,2]]; appending the payload ["3"],
    quotes included, leaves the array [[1,2,3]] and reports length 3. *)
Lemma append_json_merges_arrays_witness :
  exists appended w1,
    appendToFile (JSON := JsonRef.lib) home "data.json" payload3
      (Sample.tree [("data.json", "[1,2]")]) = (Ok appended, w1) /\
    files w1 =
      <[resolved home "data.json" :=
          File (JsonRef.stringify (JArr [JNum 1%Z; JNum 2%Z; JNum 3%Z]))]>
        (files (Sample.tree [("data.json", "[1,2]")])) /\
    FileResult.arrayLength appended = Some 3.
Proof.
  apply (append_json_merges_arrays (JSON := JsonRef.lib) home "data.json" payload3
           "[1,2]" (JArr [JNum 1%Z; JNum 2%Z]) (JNum 3%Z));
    reflexivity.
Defined.

(** The text written for [[1,2,3]]. *)
Example stringify_1_2_3 :
  JsonRef.stringify (JArr [JNum 1%Z; JNum 2%Z; JNum 3%Z]) =
  "[
  1,
  2,
  3
]".
Proof. reflexivity. Qed.

(** A file holding the scalar [42] holds an array after the first
    append. *)
Example append_to_scalar_wraps_it :
  exists appended w1,
    appendToFile (JSON := JsonRef.lib) home "answer.json" "7"
      (Sample.tree [("answer.json", "42")]) = (Ok appended, w1) /\
    FileResult.arrayLength appended = Some 2 /\
    files w1 !! resolved home "answer.json" =
      Some (File (JsonRef.stringify (JArr [JNum 42%Z; JNum 7%Z]))).
Proof.
  eexists _, _. split; [vm_compute; reflexivity|].
  split; reflexivity.
Qed.

(** The payload ["hello"], quotes included, on a file that parses. *)
Lemma append_json_quoted_text_rejected_witness :
  exists w1,
    appendToFile (JSON := JsonRef.lib) home "data.json" payloadHello
      (Sample.tree [("data.json", "[1,2]")]) =
    (Throw (Error.new ("Invalid JSON content to append: " +:+ payloadHello)), w1) /\
    files w1 = files (Sample.tree [("data.json", "[1,2]")]).
Proof.
  apply (append_json_quoted_text_rejected (JSON := JsonRef.lib) home "data.json"
           "hello" "[1,2]" doubleQuote doubleQuote (JArr [JNum 1%Z; JNum 2%Z]));
    reflexivity.
Defined.

(** C10 as stated fails: the same payload appended to a [.json] file
    whose content is no JSON text is rejected with the invalid-format
    error of the file, not with the invalid-content error of the
    payload. *)
Lemma append_json_quoted_text_on_broken_file :
  JsonRef.parse "hello" = None /\
  fst (appendToFile (JSON := JsonRef.lib) home "data.json" payloadHello
         (Sample.tree [("data.json", "oops")])) =
    Throw (Error.new "Invalid JSON format in file 'data.json'") /\
  fst (appendToFile (JSON := JsonRef.lib) home "data.json" payloadHello
         (Sample.tree [("data.json", "oops")])) <>
    Throw (Error.new ("Invalid JSON content to append: " +:+ payloadHello)).
Proof.
  split; [reflexivity|]. split; [reflexivity|].
  vm_compute. discriminate.
Defined.

(** An id that is no ObjectId, on each of the three routes. *)
Lemma malformed_id_rejected_before_storage_witness :
  userRoutes (mongo := mongoose) (GetUser "not-an-id") annOnly = (invalidId, annOnly) /\
  userRoutes (mongo := mongoose) (PutUser "not-an-id" [("name", JStr "Bea")]) annOnly
    = (invalidId, annOnly) /\
  userRoutes (mongo := mongoose) (DeleteUser "not-an-id") annOnly = (invalidId, annOnly).
Proof.
  apply (malformed_id_rejected_before_storage (mongo := mongoose)). reflexivity.
Defined.

(** C6 as stated fails: the list reply for a collection holding Ann
    carries her record with its [password] property. *)
Lemma list_reply_carries_password :
  records (fst (userRoutes (mongo := mongoose) GetUsers annOnly)) = [toJSON ann] /\
  member "password" (toJSON ann) = Some (JStr (digest "correct horse")).
Proof. split; reflexivity. Defined.

(** C4, at a request that repeats Ann's email: the service rejects with
    [statusCode] 409 and adds no user, but the controller reads [code],
    which the error does not have, and answers 400. *)
Theorem duplicate_email_is_answered_400 :
  createUserService (mongo := mongoose) annAgain annOnly =
    (Throw {| Error.name := "Error";
              Error.message := "A user with this email address already exists.";
              Error.code := None;
              Error.statusCode := Some 409%Z |},
     sent (FindOne (Some "ann@example.com")) annOnly) /\
  createUser (mongo := mongoose) annAgain annOnly =
    (apiError 400 "Create User Failed"
       "A user with this email address already exists.",
     sent (FindOne (Some "ann@example.com")) annOnly) /\
  users (snd (createUser (mongo := mongoose) annAgain annOnly)) = users annOnly.
Proof. repeat split. Qed.

(** C5, at an update of Ann with an empty body: the router runs no
    validation, the request reaches the handler and the store, and the
    answer is 200; [validateUpdateUser], which no route installs, would
    have answered 400. *)
Theorem empty_update_is_answered_200 :
  userRoutes (mongo := mongoose) (PutUser (_id ann) []) annOnly =
    (apiSuccess 200 "User updated successfully" (Some (toJSON ann)),
     {| users := [ann];
        queries := [FindById (_id ann); FindByIdAndUpdate (_id ann) []] |}) /\
  forall next,
    validateUpdateUser joiValue detailMessage [] next annOnly =
    (apiError 400 "Validation Error"
       (JsonRef.quoted "value" +:+ " must have at least 1 key"), annOnly).
Proof. split; [|intros next]; reflexivity. Qed.

(** * Further properties *)

(** ** Filenames *)

Section FilenameFacts.
Import JsString Path Fs FsService FsDirectory.
Context {number : Type} {JSON : JsonLib number}.
Variable dirname : path.

Lemma takeSegment_all (l : list ascii) :
  Forall (fun c => c <> slash) l -> takeSegment l = l.
Proof.
  induction 1 as [|c l Hc _ IH]; simpl; [reflexivity|].
  apply Ascii.eqb_neq in Hc. now rewrite Hc, IH.
Qed.

Lemma takeSegment_before_slash (l rest : list ascii) :
  Forall (fun c => c <> slash) l -> takeSegment (l ++ slash :: rest) = l.
Proof.
  induction 1 as [|c l Hc _ IH]; simpl; [reflexivity|].
  apply Ascii.eqb_neq in Hc. now rewrite Hc, IH.
Qed.

Lemma dropSlashes_name (l rest : list ascii) :
  Forall (fun c => c <> slash) l -> l <> [] ->
  dropSlashes (l ++ rest) = l ++ rest.
Proof.
  intros Hl Hne. destruct Hl as [|c l Hc _]; [congruence|].
  simpl. apply Ascii.eqb_neq in Hc. now rewrite Hc.
Qed.

Lemma basename_slashfree (s : string) :
  Forall (fun c => c <> slash) (chars s) -> basename s = s.
Proof.
  intros Hs. unfold basename.
  assert (Hr : Forall (fun c => c <> slash) (rev (chars s)))
    by now apply Forall_rev.
  destruct (rev (chars s)) as [|c r] eqn:E.
  - simpl. apply (f_equal (@rev ascii)) in E. rewrite rev_involutive in E.
    simpl in E. rewrite <- (ofChars_chars s), E. reflexivity.
  - rewrite <- (app_nil_r (c :: r)), dropSlashes_name, app_nil_r by easy.
    rewrite takeSegment_all by assumption.
    rewrite <- E, rev_involutive. apply ofChars_chars.
Qed.

Lemma basename_chars_slashfree (filename : string) :
  Forall (fun c => c <> slash) (chars (basename filename)).
Proof.
  unfold basename. rewrite chars_ofChars.
  apply Forall_rev, takeSegment_no_slash.
Qed.

Lemma basename_idempotent (filename : string) :
  basename (basename filename) = basename filename.
Proof. apply basename_slashfree, basename_chars_slashfree. Qed.

Lemma properName_slashfree (name : string) :
  properName name = true ->
  name <> "" /\ name <> "." /\ name <> ".." /\
  Forall (fun c => c <> slash) (chars name).
Proof.
  unfold properName. rewrite !andb_true_iff, !negb_true_iff.
  intros [[[H0 H1] H2] H3]. apply String.eqb_neq in H0, H1, H2.
  repeat split; try assumption.
  apply List.Forall_forall. intros c Hc.
  rewrite forallb_forall in H3. specialize (H3 c Hc).
  apply negb_true_iff in H3. now apply Ascii.eqb_neq.
Qed.

Lemma chars_nonempty (s : string) : s <> "" -> chars s <> [].
Proof. destruct s; [congruence | discriminate]. Qed.

Lemma basename_of_path (dir name : string) :
  properName name = true ->
  basename (dir +:+ "/" +:+ name) = name.
Proof.
  intros Hname. destruct (properName_slashfree name Hname) as (H0 & _ & _ & Hs).
  assert (Hrev : rev (chars (dir +:+ "/" +:+ name))
                 = rev (chars name) ++ slash :: rev (chars dir)).
  { rewrite chars_app. change (chars ("/" +:+ name)) with (slash :: chars name).
    rewrite rev_app_distr. simpl rev. now rewrite <- app_assoc. }
  unfold basename. rewrite Hrev.
  assert (Hr : Forall (fun c => c <> slash) (rev (chars name)))
    by now apply Forall_rev.
  rewrite dropSlashes_name; [|assumption|].
  - rewrite (takeSegment_before_slash _ _ Hr), rev_involutive.
    apply ofChars_chars.
  - intros E. apply (f_equal (@rev ascii)) in E.
    rewrite rev_involutive in E. now apply (chars_nonempty name H0).
Qed.

(** X1: whatever directories a caller puts in front of a proper file
    name, the operations work on the entry of that name in the [files]
    directory. *)
Theorem directory_prefix_is_discarded (dir name : string) :
  properName name = true ->
  resolved dirname (dir +:+ "/" +:+ name) = FILES_DIR dirname ++ [name] /\
  resolved dirname name = FILES_DIR dirname ++ [name] /\
  inside (FILES_DIR dirname) (resolved dirname (dir +:+ "/" +:+ name)) = true.
Proof.
  intros Hname.
  destruct (properName_slashfree name Hname) as (H0 & H1 & H2 & Hs).
  assert (Hplain : resolved dirname name = FILES_DIR dirname ++ [name]).
  { pose proof (basename_slashfree name Hs) as Hb.
    destruct (resolved_inside dirname name) as [E _]; rewrite ?Hb; try assumption.
    now rewrite E, Hb. }
  assert (Hpath : resolved dirname (dir +:+ "/" +:+ name)
                  = FILES_DIR dirname ++ [name]).
  { unfold resolved. rewrite basename_of_path by assumption.
    rewrite <- Hplain. unfold resolved.
    now rewrite (basename_slashfree name Hs). }
  repeat split; try assumption.
  rewrite Hpath. apply inside_child.
Qed.

(** X2: an operation sees its filename only through the final segment:
    when that segment is not empty, calling it with the whole filename or
    with the segment alone is the same computation. *)
Theorem operations_depend_on_basename_only (filename content : string) :
  basename filename <> "" ->
  createFile dirname filename content
    = createFile dirname (basename filename) content /\
  readFile dirname filename = readFile dirname (basename filename) /\
  appendToFile dirname filename content
    = appendToFile dirname (basename filename) content /\
  deleteFile dirname filename = deleteFile dirname (basename filename).
Proof.
  intros Hb.
  assert (Hf : isEmpty filename = false).
  { destruct filename; [now elim Hb | reflexivity]. }
  pose proof (isEmpty_false _ Hb) as Hb'.
  unfold createFile, readFile, appendToFile, deleteFile.
  rewrite basename_idempotent, Hf, Hb'. repeat split.
Qed.

End FilenameFacts.

(** ** More on the file service *)

(** Take every branch of a run apart. *)
Ltac branches :=
  repeat (simpl in *; rewrite ?lookup_insert_eq in *; try case_match;
          simplify_eq).

Section FsMore.
Import JsString Path Fs FsService FsDirectory.
Context {number : Type} {JSON : JsonLib number}.
Variable dirname : path.

(** X3: an operation touches no entry but the one its filename resolves
    to: every other path holds after the call what it held before. *)
Theorem operations_leave_other_paths (filename content : string) (w : world)
    (p : path) :
  p <> resolved dirname filename ->
  files (snd (createFile dirname filename content w)) !! p = files w !! p /\
  files (snd (readFile dirname filename w)) !! p = files w !! p /\
  files (snd (appendToFile dirname filename content w)) !! p = files w !! p /\
  files (snd (deleteFile dirname filename w)) !! p = files w !! p.
Proof.
  intros Hp. unfold resolved in Hp.
  repeat split.
  - unfold createFile, bind, tryCatch, throw, ret, access, writeFile, create,
      store, called.
    branches; rewrite ?lookup_insert_ne by congruence; reflexivity.
  - unfold readFile, mustExist, bind, tryCatch, throw, ret, access,
      Fs.readFile, stat, called.
    branches; reflexivity.
  - unfold appendToFile, appendToJsonFile, mustExist, bind, tryCatch, throw,
      ret, access, Fs.readFile, writeFile, appendFile, create, stat, store,
      called.
    branches; rewrite ?lookup_insert_ne by congruence; reflexivity.
  - unfold deleteFile, mustExist, bind, tryCatch, throw, ret, access, unlink,
      called.
    branches; rewrite ?lookup_delete_ne by congruence; reflexivity.
Qed.

(** X4: an operation that rejects, for whatever reason, has changed no
    file; and [readFile] changes none whether it rejects or not. *)
Theorem rejected_operations_change_nothing
    (filename content : string) (w w' : world) (e : Error.t)
    (read : outcome FileResult.t) :
  createFile dirname filename content w = (Throw e, w') \/
  readFile dirname filename w = (read, w') \/
  appendToFile dirname filename content w = (Throw e, w') \/
  deleteFile dirname filename w = (Throw e, w') ->
  files w' = files w.
Proof.
  intros [Hrun|[Hrun|[Hrun|Hrun]]]; revert Hrun.
  - unfold createFile, bind, tryCatch, throw, ret, access, writeFile, create,
      store, called.
    intros Hrun. branches; reflexivity.
  - unfold readFile, mustExist, bind, tryCatch, throw, ret, access,
      Fs.readFile, stat, called.
    intros Hrun. branches; reflexivity.
  - unfold appendToFile, appendToJsonFile, mustExist, bind, tryCatch, throw,
      ret, access, Fs.readFile, writeFile, appendFile, create, stat, store,
      called.
    intros Hrun. branches; reflexivity.
  - unfold deleteFile, mustExist, bind, tryCatch, throw, ret, access, unlink,
      called.
    intros Hrun. branches; reflexivity.
Qed.

Lemma mustExist_missing (p : path) (notFound : string) (w : world) :
  files w !! p = None ->
  mustExist p notFound w = (Throw (Error.new notFound), called (Access p) w).
Proof.
  intros Hp. unfold mustExist. run. now rewrite access_missing.
Qed.

Lemma readFile_missing (filename : string) (w : world) :
  filename <> "" ->
  files w !! resolved dirname filename = None ->
  readFile dirname filename w
  = (Throw (Error.new ("File '" +:+ basename filename +:+ "' not found")),
     called (Access (resolved dirname filename)) w).
Proof.
  intros Hf Hp. unfold readFile. rewrite (isEmpty_false _ Hf). run.
  fold (resolved dirname filename). now rewrite mustExist_missing.
Qed.

Lemma getRead_missing (filename : string) (w : world) :
  filename <> "" ->
  files w !! resolved dirname filename = None ->
  getRead dirname (Some filename) w
  = (apiError 404 "File not found"
       ("File '" +:+ basename filename +:+ "' not found"),
     called (Access (resolved dirname filename)) w).
Proof.
  intros Hf Hp. unfold getRead, falsy, text, handle. simpl default.
  rewrite (isEmpty_false _ Hf). run.
  change (default "" (Some filename)) with filename.
  rewrite readFile_missing by assumption. simpl Error.message.
  change "' not found" with ("' " +:+ "not found" +:+ "").
  now rewrite includes_message.
Qed.


(** X6: deleting an existing regular file removes exactly that entry,
    the route answers 200, and a following read of the same filename is
    answered 404. *)
Theorem delete_then_read_is_not_found (filename text : string) (w : world) :
  filename <> "" ->
  files w !! resolved dirname filename = Some (File text) ->
  exists deleted w1 w2,
    deleteFile dirname filename w = (Ok deleted, w1) /\
    deleteDelete dirname (Some filename) w
      = (apiSuccess 200 "File deleted successfully!" (Some deleted), w1) /\
    files w1 = delete (resolved dirname filename) (files w) /\
    getRead dirname (Some filename) w1
      = (apiError 404 "File not found"
           ("File '" +:+ basename filename +:+ "' not found"), w2) /\
    files w2 = files w1.
Proof.
  intros Hf Hp.
  assert (Hdelete : exists deleted,
    deleteFile dirname filename w
    = (Ok deleted,
       {| files := delete (resolved dirname filename) (files w);
          trace := trace w ++ [Access (resolved dirname filename);
                               Unlink (resolved dirname filename)] |})).
  { unfold deleteFile. rewrite (isEmpty_false _ Hf). run.
    fold (resolved dirname filename).
    rewrite mustExist_found by (rewrite Hp; eauto).
    unfold unlink, called. simpl. rewrite Hp, <- app_assoc.
    eexists. reflexivity. }
  destruct Hdelete as [deleted Hdelete].
  set (w1 := {| files := delete (resolved dirname filename) (files w);
                trace := trace w ++ [Access (resolved dirname filename);
                                     Unlink (resolved dirname filename)] |})
    in *.
  assert (Hgone : files w1 !! resolved dirname filename = None)
    by apply lookup_delete_eq.
  pose proof (getRead_missing filename w1 Hf Hgone) as Hread.
  exists deleted, w1, (called (Access (resolved dirname filename)) w1).
  repeat split; try assumption.
  unfold deleteDelete, falsy, FsService.text, handle. simpl default.
  rewrite (isEmpty_false _ Hf). run.
  change (default "" (Some filename)) with filename.
  now rewrite Hdelete.
Qed.

(** X7: on a ready store, creating a file under a free name answers 201
    and reports the final segment as the filename, the length of the
    content as the size and the entry of the [files] directory as the
    path. *)
Theorem create_reports_name_size_and_path
    (filename content : string) (w : world) :
  ready dirname w ->
  filename <> "" -> content <> "" ->
  files w !! resolved dirname filename = None ->
  exists created w1,
    postCreate dirname (Some filename) (Some content) w
      = (apiSuccess 201 "File created successfully!" (Some created), w1) /\
    FileResult.filename created = basename filename /\
    FileResult.size created = Some (String.length content) /\
    FileResult.path created = FILES_DIR dirname ++ [basename filename] /\
    files w1 = <[FILES_DIR dirname ++ [basename filename] := File content]>
                 (files w).
Proof.
  intros [Hhome Hbase] Hf Hc Hfree.
  destruct (resolved_cases dirname filename) as [E|[E|[E Eparent]]];
    [rewrite E in Hfree; congruence | rewrite E in Hfree; congruence |].
  assert (Hparent : files w !! removelast (resolved dirname filename) = Some Dir)
    by now rewrite Eparent.
  unfold postCreate, falsy, text, handle. simpl default.
  rewrite (isEmpty_false _ Hf), (isEmpty_false _ Hc). run.
  change (default "" (Some filename)) with filename.
  change (default "" (Some content)) with content.
  unfold createFile. rewrite (isEmpty_false _ Hf), (isEmpty_false _ Hc). run.
  fold (resolved dirname filename).
  rewrite (access_missing _ _ Hfree). simpl.
  unfold writeFile. simpl. rewrite Hfree. unfold create. simpl.
  rewrite Hparent. eexists _, _. rewrite <- E. repeat split; reflexivity.
Qed.

Lemma toLowerCase_app (a b : string) :
  toLowerCase (a +:+ b) = toLowerCase a +:+ toLowerCase b.
Proof. induction a as [|c a IH]; simpl; [reflexivity | now rewrite IH]. Qed.

Lemma endsWith_app (a b : string) : endsWith (a +:+ b) b = true.
Proof.
  unfold endsWith. rewrite chars_app, rev_app_distr.
  apply startsWithChars_app.
Qed.

(** X8: the JSON policy is chosen by the extension in any letter case:
    a name followed by an extension that lowers to [.json] is a JSON
    file. *)
Theorem json_extension_in_any_case (name extension : string) :
  toLowerCase extension = ".json" ->
  isJsonFile (name +:+ extension) = true.
Proof.
  intros Hext. unfold isJsonFile.
  rewrite toLowerCase_app, Hext. apply endsWith_app.
Qed.

(** The run of a JSON append that goes through. *)
Lemma appendToFile_json_run
    (filename content current : string) (a b : json number) (w : world) :
  files w !! resolved dirname filename = Some (File current) ->
  isJsonFile (basename filename) = true ->
  JSON_parse current = Some a ->
  JSON_parse (stripQuotes (trim content)) = Some b ->
  exists appended w1,
    appendToFile dirname filename content w = (Ok appended, w1) /\
    files w1 =
      <[resolved dirname filename :=
          File (JSON_stringify (JArr (ensureArray a ++ ensureArray b)))]>
        (files w) /\
    FileResult.arrayLength appended =
      Some (length (ensureArray a ++ ensureArray b)) /\
    FileResult.newSize appended =
      Some (String.length
              (JSON_stringify (JArr (ensureArray a ++ ensureArray b)))).
Proof.
  intros Hp Hjson Ha Hb.
  rewrite appendToFile_existing;
    [| now apply isJsonFile_nonempty | now apply (parsed_nonempty _ b)
     | rewrite Hp; eauto ].
  rewrite Hjson. unfold appendToJsonFile. run.
  unfold Fs.readFile. simpl. rewrite Hp, Ha, Hb.
  unfold writeFile. simpl. rewrite Hp.
  unfold stat. simpl. rewrite lookup_insert_eq.
  eexists _, _. repeat split; reflexivity.
Qed.

(** X9: JSON appends accumulate.  When the array written by a first
    append reads back as itself, a second append extends it: the file
    ends up holding the elements of the original value, of the first
    payload and of the second payload, in that order, and the reported
    length is their total. *)
Theorem json_appends_accumulate
    (filename first second current : string) (a b c : json number)
    (w : world) :
  files w !! resolved dirname filename = Some (File current) ->
  isJsonFile (basename filename) = true ->
  JSON_parse current = Some a ->
  JSON_parse (stripQuotes (trim first)) = Some b ->
  JSON_parse (stripQuotes (trim second)) = Some c ->
  JSON_parse (JSON_stringify (JArr (ensureArray a ++ ensureArray b)))
    = Some (JArr (ensureArray a ++ ensureArray b)) ->
  exists r1 w1 r2 w2,
    appendToFile dirname filename first w = (Ok r1, w1) /\
    appendToFile dirname filename second w1 = (Ok r2, w2) /\
    files w2 =
      <[resolved dirname filename :=
          File (JSON_stringify
                  (JArr (ensureArray a ++ ensureArray b ++ ensureArray c)))]>
        (files w) /\
    FileResult.arrayLength r2 =
      Some (length (ensureArray a) + length (ensureArray b)
            + length (ensureArray c)).
Proof.
  intros Hp Hjson Ha Hb Hc Hback.
  destruct (appendToFile_json_run filename first current a b w Hp Hjson Ha Hb)
    as (r1 & w1 & Hrun1 & Hfiles1 & _).
  assert (Hp1 : files w1 !! resolved dirname filename
                = Some (File (JSON_stringify
                                (JArr (ensureArray a ++ ensureArray b)))))
    by (rewrite Hfiles1; apply lookup_insert_eq).
  destruct (appendToFile_json_run filename second _ _ c w1 Hp1 Hjson Hback Hc)
    as (r2 & w2 & Hrun2 & Hfiles2 & Hlength & _).
  exists r1, w1, r2, w2. repeat split; try assumption.
  - rewrite Hfiles2, Hfiles1, insert_insert_eq. simpl ensureArray.
    now rewrite <- app_assoc.
  - rewrite Hlength. simpl ensureArray. now rewrite !length_app.
Qed.

(** X10: a [.json] file whose content is no JSON text takes no append
    at all: whatever the payload, [appendToFile] rejects with the
    invalid-format error naming the file, and the file is unchanged. *)
Theorem append_to_broken_json_file_rejected
    (filename content current : string) (w : world) :
  files w !! resolved dirname filename = Some (File current) ->
  isJsonFile (basename filename) = true ->
  content <> "" ->
  JSON_parse current = None ->
  exists w1,
    appendToFile dirname filename content w =
    (Throw (Error.new ("Invalid JSON format in file '"
                       +:+ basename filename +:+ "'")), w1) /\
    files w1 = files w.
Proof.
  intros Hp Hjson Hc Hcurrent.
  rewrite appendToFile_existing;
    [| now apply isJsonFile_nonempty | assumption | rewrite Hp; eauto ].
  rewrite Hjson. unfold appendToJsonFile. run.
  unfold Fs.readFile. simpl. rewrite Hp, Hcurrent.
  eexists. split; reflexivity.
Qed.

(** X11: the append route classifies a rejection by the text of its
    message, and the message of a rejected payload quotes the payload: a
    payload that is no JSON text and mentions [not found] is answered
    404 File not found, although the file exists. *)
Theorem rejected_payload_mentioning_not_found_is_404
    (filename before after current : string) (a : json number) (w : world) :
  let payload := before +:+ "not found" +:+ after in
  files w !! resolved dirname filename = Some (File current) ->
  isJsonFile (basename filename) = true ->
  JSON_parse current = Some a ->
  JSON_parse (stripQuotes (trim payload)) = None ->
  exists w1,
    putAppend dirname (Some filename) (Some payload) w =
    (apiError 404 "File not found"
       ("Invalid JSON content to append: " +:+ payload), w1) /\
    files w1 = files w.
Proof.
  intros payload Hp Hjson Ha Hpayload.
  assert (Hf : filename <> "") by now apply isJsonFile_nonempty.
  assert (Hc : payload <> "") by (subst payload; now destruct before).
  unfold putAppend, falsy, text, handle. simpl default.
  rewrite (isEmpty_false _ Hf), (isEmpty_false _ Hc). run.
  change (default "" (Some filename)) with filename.
  change (default "" (Some payload)) with payload.
  rewrite appendToFile_existing by (try rewrite Hp; eauto).
  rewrite Hjson. unfold appendToJsonFile. run.
  unfold Fs.readFile. simpl. rewrite Hp, Ha, Hpayload. simpl.
  change ("Invalid JSON content to append: " +:+ payload)
    with ("Invalid JSON content to append: " +:+ before +:+ ""
          +:+ "not found" +:+ after).
  rewrite includes_message. eexists. split; reflexivity.
Qed.

End FsMore.

(** ** The files directory *)

Section DirectoryFacts.
Import JsString Path Fs FsService FsDirectory.
Variable dirname : path.

Lemma mkdirFrom_walk (rest done : path) (seg : string) (tree : gmap path node) :
  (forall k, k <= length rest -> tree !! (done ++ take k rest) = Some Dir) ->
  tree !! (done ++ rest ++ [seg]) = None ->
  mkdirFrom done (rest ++ [seg]) tree
  = inr (<[done ++ rest ++ [seg] := Dir]> tree).
Proof.
  revert done. induction rest as [|r rest IH]; intros done Hdirs Hfree.
  - pose proof (Hdirs 0 (Nat.le_refl _)) as Hdone.
    simpl in Hdone. rewrite app_nil_r in Hdone.
    simpl. rewrite Hdone. simpl in Hfree. now rewrite Hfree.
  - pose proof (Hdirs 0 (Nat.le_0_l _)) as Hdone.
    simpl in Hdone. rewrite app_nil_r in Hdone.
    simpl. rewrite Hdone.
    replace (done ++ r :: rest ++ [seg]) with ((done ++ [r]) ++ rest ++ [seg])
      by now rewrite <- app_assoc.
    apply IH.
    + intros k Hk. rewrite <- app_assoc. apply (Hdirs (S k)). simpl. lia.
    + now rewrite <- app_assoc.
Qed.

(** X12: where the directories down to the module's directory exist and
    no regular file is in the way, [ensureDirectoryExists] succeeds,
    leaves the store ready for the service, and keeps every entry that
    existed. *)
Theorem ensureDirectoryExists_makes_ready (w : world) :
  mounted dirname w ->
  (forall text, files w !! FILES_DIR dirname <> Some (File text)) ->
  exists w',
    ensureDirectoryExists dirname w = (Ok tt, w') /\
    ready dirname w' /\
    forall p, is_Some (files w !! p) -> files w' !! p = files w !! p.
Proof.
  intros Hmounted Hnofile.
  assert (Hhome : files w !! dirname = Some Dir).
  { rewrite <- (take_ge dirname (length dirname)) at 1 by lia.
    apply Hmounted. }
  unfold ensureDirectoryExists. run.
  destruct (files w !! FILES_DIR dirname) as [[text|]|] eqn:E.
  - now elim (Hnofile text).
  - rewrite access_found by (rewrite E; eauto).
    eexists. split; [reflexivity|]. split; [split|]; simpl; auto.
  - rewrite (access_missing _ _ E). simpl. unfold mkdir. simpl.
    rewrite FILES_DIR_files in *.
    rewrite (mkdirFrom_walk dirname [] "files");
      [| intros k _; apply Hmounted | exact E ].
    simpl. eexists. split; [reflexivity|]. split; [split|]; simpl.
    + rewrite lookup_insert_ne; [assumption|].
      intros Heq. apply (f_equal length) in Heq.
      rewrite length_app in Heq. simpl in Heq. lia.
    + apply lookup_insert_eq.
    + intros p [n Hn]. rewrite lookup_insert_ne; [reflexivity|].
      intros <-. congruence.
Qed.

Lemma join_proper (dir : path) (name : string) :
  properName name = true -> join dir name = dir ++ [name].
Proof.
  intros Hname.
  destruct (properName_slashfree name Hname) as (H0 & H1 & H2 & Hs).
  unfold join. rewrite (segments_no_slash _ Hs). simpl.
  rewrite ofChars_chars. unfold enter.
  apply String.eqb_neq in H0, H1, H2. now rewrite H0, H1, H2.
Qed.

Lemma children_exist (dir : path) (tree : gmap path node) (name : string) :
  In name (children dir tree) <-> is_Some (tree !! (dir ++ [name])).
Proof.
  unfold children. rewrite <- list_elem_of_In, list_elem_of_omap. split.
  - intros ([p n] & Hin & Hname). simpl in Hname.
    destruct (last p) as [l|]; [|discriminate].
    case_bool_decide; [|discriminate]. simplify_eq.
    apply elem_of_map_to_list in Hin. eauto.
  - intros [n Hn]. exists (dir ++ [name], n). split.
    + now apply elem_of_map_to_list.
    + simpl. rewrite last_snoc. now rewrite bool_decide_eq_true_2.
Qed.

(** What [listFiles] reports for one entry. *)
Lemma stats_settle (dir : path) (names : list string) (w : world) :
  Forall (fun name => properName name = true /\
                      is_Some (files w !! (dir ++ [name]))) names ->
  exists details w',
    settleAll
      (map (fun filename =>
              await stats <- stat (join dir filename);
              ret {| detailName := filename; detailSize := size stats;
                     detailPath := join dir filename |})
         names) w
    = (map Ok details, w') /\
    files w' = files w /\
    map detailName details = names /\
    Forall (fun d =>
              detailPath d = dir ++ [detailName d] /\
              forall content,
                files w !! detailPath d = Some (File content) ->
                detailSize d = String.length content) details.
Proof.
  remember (fun filename : string =>
              await stats <- stat (join dir filename);
              ret {| detailName := filename; detailSize := size stats;
                     detailPath := join dir filename |}) as describe eqn:Hd.
  revert w. induction names as [|name names IH]; intros w Hnames.
  - exists [], w. repeat split; constructor.
  - apply Forall_cons in Hnames. destruct Hnames as [[Hproper [n Hn]] Hrest].
    assert (Hone : describe name w
                   = (Ok {| detailName := name;
                            detailSize := match n with
                                          | File content => String.length content
                                          | Dir => 0
                                          end;
                            detailPath := dir ++ [name] |},
                      called (Stat (dir ++ [name])) w)).
    { rewrite Hd. run. rewrite (join_proper _ _ Hproper).
      unfold stat. simpl. rewrite Hn. now destruct n. }
    destruct (IH (called (Stat (dir ++ [name])) w)) as
      (details & w' & Hsettle & Hfiles & Hmap & Hdetails); [exact Hrest|].
    simpl. rewrite Hone, Hsettle.
    eexists (_ :: details), w'. split; [reflexivity|].
    split; [assumption|]. simpl. split; [now rewrite Hmap|].
    constructor; [|assumption]. simpl. split; [reflexivity|].
    intros c Hc. rewrite Hn in Hc. now inversion Hc.
Qed.

Lemma firstRejection_settled {A} (values : list A) :
  firstRejection (map Ok values) = Ok values.
Proof. induction values as [|a values IH]; simpl; [|rewrite IH]; reflexivity. Qed.

(** X13: on a store whose [files] directory exists and holds entries
    with proper names, [listFiles] succeeds without changing a file, the
    route answers 200, the count is the number of entries, and every
    regular file of the directory is listed under its name with the
    length of its content as size and its entry as path. *)
Theorem listFiles_lists_the_directory (w : world) :
  files w !! FILES_DIR dirname = Some Dir ->
  forallb properName (children (FILES_DIR dirname) (files w)) = true ->
  exists listing w',
    listFiles dirname w = (Ok listing, w') /\
    getList dirname w
      = (apiSuccess 200 "Files retrieved successfully!" (Some listing), w') /\
    files w' = files w /\
    count listing = length (listed listing) /\
    map detailName (listed listing) = children (FILES_DIR dirname) (files w) /\
    forall name content,
      files w !! (FILES_DIR dirname ++ [name]) = Some (File content) ->
      In {| detailName := name; detailSize := String.length content;
            detailPath := FILES_DIR dirname ++ [name] |} (listed listing).
Proof.
  intros Hdir Hproper.
  destruct (stats_settle (FILES_DIR dirname)
              (children (FILES_DIR dirname) (files w)) w)
    as (details & w' & Hsettle & Hfiles & Hmap & Hdetails).
  { apply List.Forall_forall. intros name Hin. split.
    - rewrite forallb_forall in Hproper. now apply Hproper.
    - now apply children_exist. }
  assert (Hrun : listFiles dirname w
                 = (Ok {| listingSuccess := true;
                          count := length (children (FILES_DIR dirname) (files w));
                          listed := details |}, w')).
  { unfold listFiles. unfold bind at 1. unfold readdir. rewrite Hdir.
    unfold bind at 1. unfold Promise_all.
    rewrite Hsettle, firstRejection_settled. reflexivity. }
  eexists _, w'. split; [exact Hrun|].
  split; [unfold getList, handle; now rewrite Hrun|].
  split; [assumption|]. simpl.
  split; [now rewrite <- Hmap, length_map|].
  split; [assumption|].
  intros name content Hfile.
  assert (Hin : In name (map detailName details)).
  { rewrite Hmap. apply children_exist. rewrite Hfile. eauto. }
  apply in_map_iff in Hin. destruct Hin as (d & Hname & Hin).
  rewrite List.Forall_forall in Hdetails.
  destruct (Hdetails d Hin) as [Hpath Hsize].
  rewrite Hname in Hpath. specialize (Hsize content).
  rewrite Hpath in Hsize. specialize (Hsize Hfile).
  destruct d as [dn ds dp]. simpl in *. now subst.
Qed.

End DirectoryFacts.

(** ** More on the user API *)

Section UserMore.
Context {number : Type} {mongo : Mongoose number}.

Local Abbreviation User := (User number).
Local Abbreviation Body := (Body number).
Local Abbreviation db := (db number).

Lemma getUser_unknown_id (id : string) (d : db) :
  ObjectId_isValid id = true ->
  List.find (sameId id) (users d) = None ->
  userRoutes (GetUser id) d
  = (apiError 500 "Server Error" "User not found", sent (FindById id) d).
Proof.
  intros Hvalid Hmissing.
  unfold userRoutes, checkUserExists, getUserByIdService, User_findById.
  rewrite Hvalid. run. cbn [users sent]. now rewrite Hmissing.
Qed.


Lemma find_after_delete (id : string) (docs : list User) :
  List.find (sameId id) (List.filter (fun u => negb (sameId id u)) docs) = None.
Proof.
  induction docs as [|u docs IH]; simpl; [reflexivity|].
  destruct (sameId id u) eqn:E; simpl; [assumption|]. now rewrite E.
Qed.

(** X15: deleting a stored user answers 200 without data, removes the
    user with that id and keeps every other user in order; asking for the
    same id afterwards is answered 500 [User not found]. *)
Theorem delete_then_get_is_not_found (id : string) (user : User) (d : db) :
  ObjectId_isValid id = true ->
  List.find (sameId id) (users d) = Some user ->
  exists d1 d2,
    userRoutes (DeleteUser id) d
      = (apiSuccess 200 "User deleted successfully" None, d1) /\
    users d1 = List.filter (fun u => negb (sameId id u)) (users d) /\
    userRoutes (GetUser id) d1
      = (apiError 500 "Server Error" "User not found", d2) /\
    users d2 = users d1.
Proof.
  intros Hvalid Hfound. eexists _, _. split; [|split; [|split]].
  - unfold userRoutes, checkUserExists, getUserByIdService, User_findById.
    rewrite Hvalid. run. cbn [users sent]. rewrite Hfound.
    unfold deleteUser, respond, deleteUserService, User_findByIdAndDelete.
    run. rewrite Hvalid. cbn [users sent negb]. rewrite Hfound. reflexivity.
  - reflexivity.
  - apply getUser_unknown_id; [assumption|]. apply find_after_delete.
  - reflexivity.
Qed.

(** X16: a stored user is returned by getById as stored, with 200, after
    one lookup and without any change to the collection. *)
Theorem get_by_id_returns_the_stored_user (id : string) (user : User) (d : db) :
  ObjectId_isValid id = true ->
  List.find (sameId id) (users d) = Some user ->
  userRoutes (GetUser id) d
  = (apiSuccess 200 "User retrieved successfully" (Some (toJSON user)),
     sent (FindById id) d) /\
  In user (users d) /\ _id user = id.
Proof.
  intros Hvalid Hfound. split; [|split].
  - unfold userRoutes, checkUserExists, getUserByIdService, User_findById.
    rewrite Hvalid. run. cbn [users sent]. now rewrite Hfound.
  - now apply (find_In id).
  - apply List.find_some in Hfound. destruct Hfound as [_ Hid].
    now apply String.eqb_eq in Hid.
Qed.

Lemma find_none_sameEmail (address : string) (docs : list User) :
  existsb (sameEmail address) docs = false ->
  ~ In address (map email docs).
Proof.
  induction docs as [|u docs IH]; simpl; [tauto|].
  intros Hnone. apply orb_false_iff in Hnone. destruct Hnone as [Hu Hrest].
  intros [Heq|Hin]; [|now apply IH].
  unfold sameEmail in Hu. rewrite Heq, String.eqb_refl in Hu. discriminate.
Qed.

(** X17: when no stored user has the address of the request and the
    schema accepts the user data, create answers 201, appends exactly one
    user and stores and returns the bcrypt hash in place of the password
    the schema validated. *)
Theorem create_stores_the_hashed_password (body : Body) (doc : User) (d : db) :
  (forall address, emailOf body = Some address ->
                   List.find (sameEmail (castEmail address)) (users d) = None) ->
  User_new body = inr doc ->
  existsb (sameEmail (email doc)) (users d) = false ->
  exists d1,
    createUser body d
    = (apiSuccess 201 "User created successfully"
         (Some (toJSON (preSave true doc))), d1) /\
    users d1 = users d ++ [preSave true doc] /\
    password (preSave true doc) = bcrypt_hash (password doc) /\
    member "password" (toJSON (preSave true doc))
      = Some (JStr (bcrypt_hash (password doc))).
Proof.
  intros Hfree Hnew Hunique.
  unfold createUser, respond, createUserService, User_findOne, User_create.
  run. cbn [users sent].
  assert (Hpre : match emailOf body with
                 | Some a => List.find (sameEmail (castEmail a)) (users d)
                 | None => None
                 end = None).
  { destruct (emailOf body); [now apply Hfree | reflexivity]. }
  destruct (emailOf body) as [address|]; rewrite ?Hpre, Hnew;
    cbn [users sent]; change (email (preSave true doc)) with (email doc);
    rewrite Hunique; eexists; repeat split.
Qed.


Lemma replace_elements (id : string) (doc x : User) (docs : list User) :
  In x (replace id doc docs) -> x = doc \/ In x docs.
Proof.
  induction docs as [|u docs IH]; simpl; [tauto|].
  destruct (sameId id u); simpl; intros [Hx|Hx]; auto.
  destruct (IH Hx); auto.
Qed.

Lemma existsb_false {A} (f : A -> bool) (l : list A) (x : A) :
  existsb f l = false -> In x l -> f x = false.
Proof.
  intros Hnone Hx. destruct (f x) eqn:E; [|reflexivity].
  rewrite <- Hnone. symmetry. apply existsb_exists. eauto.
Qed.

Lemma emails_unique_after_replace (id : string) (doc : User) (docs : list User) :
  List.NoDup (map email docs) -> List.NoDup (map _id docs) ->
  existsb (fun u => sameEmail (email doc) u && negb (sameId id u)) docs = false ->
  List.NoDup (map email (replace id doc docs)).
Proof.
  induction docs as [|u docs IH]; simpl; intros Hemails Hids Hcheck;
    [constructor|].
  apply List.NoDup_cons_iff in Hemails. destruct Hemails as [Hu Hemails].
  apply List.NoDup_cons_iff in Hids. destruct Hids as [Hid Hids].
  apply orb_false_iff in Hcheck. destruct Hcheck as [Hcu Hcheck].
  assert (Hothers : forall v, In v docs -> email v = email doc -> _id v = id).
  { intros v Hv Hmail. apply (existsb_false _ _ v) in Hcheck; [|assumption].
    unfold sameEmail, sameId in Hcheck.
    rewrite Hmail, String.eqb_refl in Hcheck. simpl in Hcheck.
    apply negb_false_iff in Hcheck. now apply String.eqb_eq in Hcheck. }
  destruct (sameId id u) eqn:E; simpl; apply List.NoDup_cons_iff; split.
  - intros Hin. apply in_map_iff in Hin. destruct Hin as (v & Hmail & Hv).
    apply Hid. apply in_map_iff. exists v. split; [|assumption].
    rewrite (Hothers v Hv Hmail). unfold sameId in E.
    apply String.eqb_eq in E. now symmetry.
  - assumption.
  - intros Hin. apply in_map_iff in Hin. destruct Hin as (x & Hmail & Hx).
    destruct (replace_elements _ _ _ _ Hx) as [->|Hx'].
    + unfold sameEmail in Hcu. rewrite Hmail, String.eqb_refl in Hcu.
      simpl in Hcu. rewrite ?E in Hcu. discriminate.
    + apply Hu. apply in_map_iff. eauto.
  - now apply IH.
Qed.

Lemma emails_unique_after_filter (keep : User -> bool) (docs : list User) :
  List.NoDup (map email docs) -> List.NoDup (map email (List.filter keep docs)).
Proof.
  induction docs as [|u docs IH]; simpl; intros Hemails; [constructor|].
  apply List.NoDup_cons_iff in Hemails. destruct Hemails as [Hu Hemails].
  destruct (keep u); simpl; [|auto].
  apply List.NoDup_cons_iff. split; [|auto].
  intros Hin. apply Hu. apply in_map_iff in Hin.
  destruct Hin as (v & Hmail & Hv). apply filter_In in Hv.
  apply in_map_iff. exists v. tauto.
Qed.

Lemma emails_unique_after_insert (doc : User) (docs : list User) :
  List.NoDup (map email docs) ->
  existsb (sameEmail (email doc)) docs = false ->
  List.NoDup (map email (docs ++ [doc])).
Proof.
  intros Hemails Hnew. rewrite map_app. simpl.
  induction docs as [|u docs IH]; simpl in *.
  - constructor; [tauto | constructor].
  - apply List.NoDup_cons_iff in Hemails. destruct Hemails as [Hu Hemails].
    apply orb_false_iff in Hnew. destruct Hnew as [Hcu Hnew].
    apply List.NoDup_cons_iff. split; [|auto].
    intros Hin. apply in_app_or in Hin. destruct Hin as [Hin|[Heq|[]]]; [tauto|].
    unfold sameEmail in Hcu. rewrite Heq, String.eqb_refl in Hcu. discriminate.
Qed.

(** X19: the router never makes two stored users share an email: on a
    collection whose emails and ids are each unique, the emails are still
    unique after any request, whether it succeeded or not. *)
Theorem emails_stay_unique (req : request) (d : db) :
  List.NoDup (map email (users d)) ->
  List.NoDup (map _id (users d)) ->
  List.NoDup (map email (users (snd (userRoutes req d)))).
Proof.
  intros Hemails Hids.
  destruct req as [body| |id|id body|id]; unfold userRoutes.
  - unfold createUser, respond, createUserService, User_findOne, User_create.
    run. cbn [users sent].
    destruct (emailOf body) as [address|];
      [destruct (List.find _ (users d)); [assumption|]|];
      (destruct (User_new body) as [invalid|doc]; [assumption|]);
      cbn [users sent]; change (email (preSave true doc)) with (email doc);
      (destruct (existsb _ (users d)) eqn:E; [assumption|]); simpl;
      now apply emails_unique_after_insert.
  - assumption.
  - unfold checkUserExists, getUserByIdService, User_findById, getUserById.
    run. destruct (ObjectId_isValid id); simpl; [|assumption].
    destruct (List.find (sameId id) (users d)); assumption.
  - unfold checkUserExists, getUserByIdService, User_findById.
    run. destruct (ObjectId_isValid id) eqn:V; simpl; [|assumption].
    destruct (List.find (sameId id) (users d)) as [user|] eqn:E; simpl;
      [|assumption].
    unfold updateUser, respond, updateUserService, User_findByIdAndUpdate.
    run. rewrite V. simpl. rewrite E.
    destruct (applyUpdates body user) as [invalid|doc]; simpl; [assumption|].
    destruct (existsb _ (users d)) eqn:Hcheck; simpl; [assumption|].
    now apply emails_unique_after_replace.
  - unfold checkUserExists, getUserByIdService, User_findById.
    run. destruct (ObjectId_isValid id) eqn:V; simpl; [|assumption].
    destruct (List.find (sameId id) (users d)) as [user|] eqn:E; simpl;
      [|assumption].
    unfold deleteUser, respond, deleteUserService, User_findByIdAndDelete.
    run. rewrite V. simpl. rewrite E. simpl.
    now apply emails_unique_after_filter.
Qed.

End UserMore.

(** ** Request validation and the error handler *)

Section ValidationFacts.
Context {number : Type}.
Variable joiValue : rule -> json number -> option string.

Local Abbreviation Body := (Body number).

Lemma firstSome_none {A B} (f : A -> option B) (l : list A) (a : A) :
  firstSome f l = None -> In a l -> f a = None.
Proof.
  induction l as [|x l IH]; simpl; [tauto|].
  destruct (f x) eqn:E; [discriminate|].
  intros Hrest [->|Hin]; auto.
Qed.

(** What a body that passes a schema looks like. *)
Lemma schemaValidate_accepted (schema : Schema) (body : Body) :
  schemaValidate joiValue schema body = None ->
  minKeys schema <= length body /\
  (forall key value, In (key, value) body -> In key (map fst (keys schema))) /\
  (forall key r, In (key, (r, Required)) (keys schema) ->
                 is_Some (property key body)) /\
  (forall key r p value, In (key, (r, p)) (keys schema) ->
                         property key body = Some value ->
                         joiValue r value = None).
Proof.
  unfold schemaValidate.
  destruct (firstSome (checkKey joiValue body) (keys schema)) eqn:Hkeys;
    [discriminate|].
  destruct (firstSome (unknownKey schema) body) eqn:Hunknown; [discriminate|].
  destruct (length body <? minKeys schema)%nat eqn:Hmin; [discriminate|].
  intros _. apply Nat.ltb_ge in Hmin. repeat split; [assumption| | |].
  - intros key value Hin.
    pose proof (firstSome_none _ _ _ Hunknown Hin) as Hknown.
    unfold unknownKey in Hknown. simpl in Hknown.
    destruct (existsb _ (keys schema)) eqn:E; [|discriminate].
    apply existsb_exists in E. destruct E as (entry & Hentry & Heq).
    apply String.eqb_eq in Heq. subst key. now apply in_map.
  - intros key r Hin.
    pose proof (firstSome_none _ _ _ Hkeys Hin) as Hkey. simpl in Hkey.
    destruct (property key body); [eauto | discriminate].
  - intros key r p value Hin Hvalue.
    pose proof (firstSome_none _ _ _ Hkeys Hin) as Hkey. simpl in Hkey.
    rewrite Hvalue in Hkey.
    destruct (joiValue r value); [|reflexivity].
    destruct p; discriminate.
Qed.

(** X20: a body that passes [updateUserSchema] has at least one key, and
    each of its keys is one of name, email, phone and age; in particular
    it carries no password. *)
Theorem update_schema_accepts_known_keys_only (body : Body) :
  schemaValidate joiValue updateUserSchema body = None ->
  body <> [] /\
  property "password" body = None /\
  forall key value,
    In (key, value) body ->
    key = "name" \/ key = "email" \/ key = "phone" \/ key = "age".
Proof.
  intros Haccepted.
  destruct (schemaValidate_accepted _ _ Haccepted) as (Hmin & Hknown & _ & _).
  assert (Hkeys : forall key value,
             In (key, value) body ->
             key = "name" \/ key = "email" \/ key = "phone" \/ key = "age").
  { intros key value Hin. specialize (Hknown key value Hin). simpl in Hknown.
    intuition congruence. }
  split; [|split; [|assumption]].
  - intros ->. simpl in Hmin. lia.
  - clear Haccepted Hmin Hknown.
    induction body as [|[k v] body IH]; simpl; [reflexivity|].
    destruct (String.eqb k "password") eqn:E.
    + apply String.eqb_eq in E. subst k.
      destruct (Hkeys "password" v) as [?|[?|[?|?]]];
        [now left | discriminate..].
    + apply IH. intros key value Hin. apply (Hkeys key value). now right.
Qed.

(** X21: a body that passes [createUserSchema] carries name, email,
    password and phone, and no key outside those four and age. *)
Theorem create_schema_requires_four_fields (body : Body) :
  schemaValidate joiValue createUserSchema body = None ->
  is_Some (property "name" body) /\ is_Some (property "email" body) /\
  is_Some (property "password" body) /\ is_Some (property "phone" body) /\
  forall key value,
    In (key, value) body ->
    key = "name" \/ key = "email" \/ key = "password" \/ key = "phone"
    \/ key = "age".
Proof.
  intros Haccepted.
  destruct (schemaValidate_accepted _ _ Haccepted) as (_ & Hknown & Hrequired & _).
  repeat split.
  - apply (Hrequired "name" (JoiString (Some 2) false None)). simpl. tauto.
  - apply (Hrequired "email" (JoiString None true None)). simpl. tauto.
  - apply (Hrequired "password" (JoiString (Some 8) false None)). simpl. tauto.
  - apply (Hrequired "phone" (JoiString None false (Some phonePattern))).
    simpl. tauto.
  - intros key value Hin. specialize (Hknown key value Hin). simpl in Hknown.
    intuition congruence.
Qed.

End ValidationFacts.

Section ErrorHandlerFacts.
Import ErrorHandler.


End ErrorHandlerFacts.

(** ** How operations compose *)

Section Compositions.
Import JsString Path Fs FsService.
Context {number : Type} {mongo : Mongoose number}.
Variable dirname : path.

Local Abbreviation User := (User number).
Local Abbreviation Body := (Body number).
Local Abbreviation db := (db number).

(** X23: on a ready store, creating a file under a free name and then
    deleting it leaves the tree of files exactly as it was. *)
Theorem create_then_delete_restores (filename content : string) (w : world) :
  ready dirname w ->
  filename <> "" -> content <> "" ->
  files w !! resolved dirname filename = None ->
  exists created w1 deleted w2,
    createFile dirname filename content w = (Ok created, w1) /\
    deleteFile dirname filename w1 = (Ok deleted, w2) /\
    files w2 = files w.
Proof.
  intros [Hhome Hbase] Hf Hc Hfree.
  assert (Hparent : files w !! removelast (resolved dirname filename) = Some Dir).
  { destruct (resolved_cases dirname filename) as [E|[E|[_ E]]].
    - rewrite E in Hfree. congruence.
    - rewrite E in Hfree. congruence.
    - now rewrite E. }
  destruct (createFile_free dirname filename content w Hf Hc Hfree Hparent)
    as [created Hcreate].
  eexists created, _, _, _. split; [exact Hcreate|].
  unfold deleteFile. rewrite (isEmpty_false _ Hf). run.
  fold (resolved dirname filename).
  rewrite mustExist_found by (simpl; rewrite lookup_insert_eq; eauto).
  unfold unlink. simpl. rewrite lookup_insert_eq.
  split; [reflexivity|]. simpl. now apply delete_insert_id.
Qed.



End Compositions.

(** ** The further properties on sample stores *)

Import FsDirectory.

Lemma directory_prefix_is_discarded_witness :
  resolved home ("../../etc" +:+ "/" +:+ "passwd") = FILES_DIR home ++ ["passwd"] /\
  resolved home "passwd" = FILES_DIR home ++ ["passwd"] /\
  inside (FILES_DIR home) (resolved home ("../../etc" +:+ "/" +:+ "passwd")) = true.
Proof. apply directory_prefix_is_discarded. reflexivity. Defined.

Lemma operations_depend_on_basename_only_witness :
  createFile home "notes/todo.txt" "buy milk" = createFile home "todo.txt" "buy milk" /\
  readFile home "notes/todo.txt" = readFile home "todo.txt" /\
  appendToFile (JSON := JsonRef.lib) home "notes/todo.txt" "buy milk"
    = appendToFile (JSON := JsonRef.lib) home "todo.txt" "buy milk" /\
  deleteFile home "notes/todo.txt" = deleteFile home "todo.txt".
Proof.
  apply (operations_depend_on_basename_only (JSON := JsonRef.lib) home
           "notes/todo.txt" "buy milk").
  discriminate.
Defined.

Lemma operations_leave_other_paths_witness :
  let w := tree [("a.txt", "hi"); ("b.txt", "yo")] in
  let p := FILES_DIR home ++ ["b.txt"] in
  files (snd (createFile home "a.txt" "x" w)) !! p = files w !! p /\
  files (snd (readFile home "a.txt" w)) !! p = files w !! p /\
  files (snd (appendToFile (JSON := JsonRef.lib) home "a.txt" "x" w)) !! p
    = files w !! p /\
  files (snd (deleteFile home "a.txt" w)) !! p = files w !! p.
Proof.
  apply (operations_leave_other_paths (JSON := JsonRef.lib) home "a.txt" "x").
  discriminate.
Defined.

Lemma rejected_operations_change_nothing_witness :
  files (called (Access (resolved home "a.txt")) (tree [("a.txt", "hi")]))
  = files (tree [("a.txt", "hi")]).
Proof.
  apply (rejected_operations_change_nothing (JSON := JsonRef.lib) home
           "a.txt" "again" (tree [("a.txt", "hi")]) _
           (Error.new "File 'a.txt' already exists")
           (Throw (Error.new "unused"))).
  left. reflexivity.
Defined.


Lemma delete_then_read_is_not_found_witness :
  exists deleted w1 w2,
    deleteFile home "a.txt" (tree [("a.txt", "hi")]) = (Ok deleted, w1) /\
    deleteDelete home (Some "a.txt") (tree [("a.txt", "hi")])
      = (apiSuccess 200 "File deleted successfully!" (Some deleted), w1) /\
    files w1 = delete (resolved home "a.txt") (files (tree [("a.txt", "hi")])) /\
    getRead home (Some "a.txt") w1
      = (apiError 404 "File not found" "File 'a.txt' not found", w2) /\
    files w2 = files w1.
Proof.
  apply (delete_then_read_is_not_found home "a.txt" "hi");
    [discriminate | reflexivity].
Defined.

Lemma create_reports_name_size_and_path_witness :
  exists created w1,
    postCreate home (Some "notes/todo.txt") (Some "buy milk") (tree [])
      = (apiSuccess 201 "File created successfully!" (Some created), w1) /\
    FileResult.filename created = "todo.txt" /\
    FileResult.size created = Some 8 /\
    FileResult.path created = FILES_DIR home ++ ["todo.txt"] /\
    files w1 = <[FILES_DIR home ++ ["todo.txt"] := File "buy milk"]>
                 (files (tree [])).
Proof.
  apply (create_reports_name_size_and_path home "notes/todo.txt" "buy milk");
    [split; reflexivity | discriminate | discriminate | reflexivity].
Defined.

Lemma json_extension_in_any_case_witness : isJsonFile ("Data" +:+ ".JSON") = true.
Proof. apply json_extension_in_any_case. reflexivity. Defined.

Lemma json_appends_accumulate_witness :
  exists r1 w1 r2 w2,
    appendToFile (JSON := JsonRef.lib) home "data.json" payload3
      (tree [("data.json", "[1,2]")]) = (Ok r1, w1) /\
    appendToFile (JSON := JsonRef.lib) home "data.json" "[4,5]" w1 = (Ok r2, w2) /\
    files w2 =
      <[resolved home "data.json" :=
          File (JsonRef.stringify
                  (JArr [JNum 1%Z; JNum 2%Z; JNum 3%Z; JNum 4%Z; JNum 5%Z]))]>
        (files (tree [("data.json", "[1,2]")])) /\
    FileResult.arrayLength r2 = Some 5.
Proof.
  apply (json_appends_accumulate (JSON := JsonRef.lib) home "data.json"
           payload3 "[4,5]" "[1,2]" (JArr [JNum 1%Z; JNum 2%Z]) (JNum 3%Z)
           (JArr [JNum 4%Z; JNum 5%Z]));
    reflexivity.
Defined.

Lemma append_to_broken_json_file_rejected_witness :
  exists w1,
    appendToFile (JSON := JsonRef.lib) home "data.json" "[3]"
      (tree [("data.json", "oops")]) =
    (Throw (Error.new "Invalid JSON format in file 'data.json'"), w1) /\
    files w1 = files (tree [("data.json", "oops")]).
Proof.
  apply (append_to_broken_json_file_rejected (JSON := JsonRef.lib) home
           "data.json" "[3]" "oops");
    [reflexivity | reflexivity | discriminate | reflexivity].
Defined.

Lemma rejected_payload_mentioning_not_found_is_404_witness :
  exists w1,
    putAppend (JSON := JsonRef.lib) home (Some "data.json")
      (Some "item not found yet") (tree [("data.json", "[1,2]")]) =
    (apiError 404 "File not found"
       "Invalid JSON content to append: item not found yet", w1) /\
    files w1 = files (tree [("data.json", "[1,2]")]).
Proof.
  apply (rejected_payload_mentioning_not_found_is_404 (JSON := JsonRef.lib)
           home "data.json" "item " " yet" "[1,2]"
           (JArr [JNum 1%Z; JNum 2%Z]));
    reflexivity.
Defined.

Lemma ensureDirectoryExists_makes_ready_witness :
  let w := {| files := list_to_map [([], Dir); (["srv"], Dir); (home, Dir)];
              trace := [] |} in
  exists w',
    ensureDirectoryExists home w = (Ok tt, w') /\
    ready home w' /\
    forall p, is_Some (files w !! p) -> files w' !! p = files w !! p.
Proof.
  apply (ensureDirectoryExists_makes_ready home).
  - intros [|[|[|n]]]; reflexivity.
  - intros text. vm_compute. discriminate.
Defined.

Lemma listFiles_lists_the_directory_witness :
  let w := tree [("a.txt", "hi"); ("data.json", "[1,2]")] in
  exists listing w',
    listFiles home w = (Ok listing, w') /\
    getList home w
      = (apiSuccess 200 "Files retrieved successfully!" (Some listing), w') /\
    files w' = files w /\
    count listing = length (listed listing) /\
    map detailName (listed listing) = children (FILES_DIR home) (files w) /\
    forall name content,
      files w !! (FILES_DIR home ++ [name]) = Some (File content) ->
      In {| detailName := name; detailSize := String.length content;
            detailPath := FILES_DIR home ++ [name] |} (listed listing).
Proof.
  apply (listFiles_lists_the_directory home); vm_compute; reflexivity.
Defined.


Lemma delete_then_get_is_not_found_witness :
  exists d1 d2,
    userRoutes (mongo := mongoose) (DeleteUser (_id ann)) annOnly
      = (apiSuccess 200 "User deleted successfully" None, d1) /\
    users d1 = List.filter (fun u => negb (sameId (_id ann) u)) (users annOnly) /\
    userRoutes (mongo := mongoose) (GetUser (_id ann)) d1
      = (apiError 500 "Server Error" "User not found", d2) /\
    users d2 = users d1.
Proof.
  apply (delete_then_get_is_not_found (mongo := mongoose) (_id ann) ann);
    reflexivity.
Defined.

Lemma get_by_id_returns_the_stored_user_witness :
  userRoutes (mongo := mongoose) (GetUser (_id ann)) annOnly
  = (apiSuccess 200 "User retrieved successfully" (Some (toJSON ann)),
     sent (FindById (_id ann)) annOnly) /\
  In ann (users annOnly) /\ _id ann = _id ann.
Proof.
  apply (get_by_id_returns_the_stored_user (mongo := mongoose)); reflexivity.
Defined.

Lemma create_stores_the_hashed_password_witness :
  exists d1,
    createUser (mongo := mongoose) bobData annOnly
    = (apiSuccess 201 "User created successfully"
         (Some (toJSON (preSave (mongo := mongoose) true bob))), d1) /\
    users d1 = users annOnly ++ [preSave (mongo := mongoose) true bob] /\
    password (preSave (mongo := mongoose) true bob) = digest (password bob) /\
    member "password" (toJSON (preSave (mongo := mongoose) true bob))
      = Some (JStr (digest (password bob))).
Proof.
  apply (create_stores_the_hashed_password (mongo := mongoose) bobData bob);
    [|reflexivity|reflexivity].
  intros address Haddress. vm_compute in Haddress.
  inversion Haddress. reflexivity.
Defined.


Lemma emails_stay_unique_witness :
  List.NoDup
    (map email (users (snd (userRoutes (mongo := mongoose) (PostUsers bobData)
                              annOnly)))).
Proof.
  apply (emails_stay_unique (mongo := mongoose));
    (constructor; [intros [] | constructor]).
Defined.

Lemma update_schema_accepts_known_keys_only_witness :
  let body : Body Z := [("name", JStr "Bea")] in
  body <> [] /\
  property "password" body = None /\
  forall key value,
    In (key, value) body ->
    key = "name" \/ key = "email" \/ key = "phone" \/ key = "age".
Proof.
  apply (update_schema_accepts_known_keys_only joiValue). reflexivity.
Defined.

Lemma create_schema_requires_four_fields_witness :
  is_Some (property "name" bobData) /\ is_Some (property "email" bobData) /\
  is_Some (property "password" bobData) /\ is_Some (property "phone" bobData) /\
  forall key value,
    In (key, value) bobData ->
    key = "name" \/ key = "email" \/ key = "password" \/ key = "phone"
    \/ key = "age".
Proof.
  apply (create_schema_requires_four_fields joiValue). reflexivity.
Defined.

Lemma create_then_delete_restores_witness :
  exists created w1 deleted w2,
    createFile home "notes/todo.txt" "buy milk" (tree [("a.txt", "hi")])
      = (Ok created, w1) /\
    deleteFile home "notes/todo.txt" w1 = (Ok deleted, w2) /\
    files w2 = files (tree [("a.txt", "hi")]).
Proof.
  apply (create_then_delete_restores home "notes/todo.txt" "buy milk");
    [split; reflexivity | discriminate | discriminate | reflexivity].
Defined.

